(** * Profile synchronisation hooks of the users-permissions example

    A shallow embedding of [server/src/index.ts]: the helper functions
    [generateUsername], [checkIfUserProfileExists], [createUserProfile],
    [deleteUserProfile] and the two lifecycle callbacks [afterCreate] and
    [beforeDelete] registered in [bootstrap].

    The callbacks receive an untyped ([any]) event and talk to the document
    service of the host framework.  Events are therefore modelled as dynamic
    JavaScript values, and the handlers as computations in a small monad that
    threads the profile collection, records every document-service call, and
    can end in a thrown [TypeError].  The arithmetic of [generateUsername] is
    binary64 arithmetic, with its rounding written out. *)

From Stdlib Require Import ZArith QArith Qround Qpower Lqa String List Lia.
From stdpp Require Import gmap strings list pretty.

Set Warnings "-register-all".
Local Open Scope Z_scope.

(** ** Dynamic values *)

Module Js.

(** The JSON-like fragment of JavaScript values an event payload is made
    of.  Numbers are restricted to integers (identifiers are integers);
    objects are finite maps from property names to values. *)
Inductive value : Type :=
  | VUndefined
  | VNull
  | VBool (b : bool)
  | VNum (n : Z)
  | VStr (s : string)
  | VObj (fields : gmap string value).

(** [v === undefined || v === null]: the values on which a property read
    throws and on which [?.] short-circuits. *)
Definition nullish (v : value) : bool :=
  match v with
  | VUndefined | VNull => true
  | _ => false
  end.

(** ToBoolean, as used by [||]. *)
Definition truthy (v : value) : bool :=
  match v with
  | VUndefined | VNull => false
  | VBool b => b
  | VNum n => negb (n =? 0)
  | VStr s => negb (String.eqb s "")
  | VObj _ => true
  end.

(** [v?.k].  An object yields the property or [undefined]; a nullish value
    yields [undefined]; a primitive has none of the property names this
    program reads ([result], [params], [data], [fullName], [bio], [where],
    [id]), so it yields [undefined] as well. *)
Definition prop (v : value) (k : string) : value :=
  match v with
  | VObj o => default VUndefined (o !! k)
  | _ => VUndefined
  end.

(** [a || b] *)
Definition logical_or (a b : value) : value := if truthy a then a else b.

(** A primitive that can identify a record: a number or a string. *)
Definition is_identifier (v : value) : Prop :=
  match v with
  | VNum _ | VStr _ => True
  | _ => False
  end.

(** Equality of two identifiers; anything that is not an identifier is
    equal to nothing. *)
Definition same_id (a b : value) : Prop :=
  match a, b with
  | VNum x, VNum y => x = y
  | VStr x, VStr y => x = y
  | _, _ => False
  end.

#[global] Instance same_id_dec a b : Decision (same_id a b).
Proof. destruct a, b; simpl; apply _. Defined.

#[global] Instance is_identifier_dec v : Decision (is_identifier v).
Proof. destruct v; simpl; apply _. Defined.

End Js.
Import Js.

(** ** Binary64 arithmetic *)

(** JavaScript numbers are binary64 floating-point numbers.  The arithmetic
    of [generateUsername] is modelled on dyadic rationals with every result
    rounded to nearest, ties to even.  Infinities and NaN are left out: the
    numbers of this program stay below [2 ^ 14]. *)
Module F64.

(** A finite binary64 number, or the exact result of one operation on such
    numbers before rounding: [mant * 2 ^ expo]. *)
Record dyadic : Type := mk { mant : Z; expo : Z }.

Definition of_Z (n : Z) : dyadic := {| mant := n; expo := 0 |}.

(** [m / 2 ^ k] rounded to the nearest integer, ties to even. *)
Definition half_even (m k : Z) : Z :=
  let q := m / 2 ^ k in
  let r := m mod 2 ^ k in
  let h := 2 ^ (k - 1) in
  if r <? h then q
  else if h <? r then q + 1
  else if Z.even q then q else q + 1.

(** The exponent of the last place of the binary64 numbers around [x]:
    53 significant bits, subnormals below [2 ^ -1022]. *)
Definition last_place (x : dyadic) : Z :=
  Z.max (Z.log2 (Z.abs (mant x)) + expo x - 52) (-1074).

(** Round to nearest, ties to even. *)
Definition round (x : dyadic) : dyadic :=
  if mant x =? 0 then x
  else
    let u := last_place x in
    if u <=? expo x then x
    else {| mant := half_even (mant x) (u - expo x); expo := u |}.

Definition mul (x y : dyadic) : dyadic :=
  round {| mant := mant x * mant y; expo := expo x + expo y |}.

Definition add (x y : dyadic) : dyadic :=
  let e := Z.min (expo x) (expo y) in
  round {| mant := mant x * 2 ^ (expo x - e) + mant y * 2 ^ (expo y - e); expo := e |}.

(** [Math.floor], as an integer. *)
Definition floor (x : dyadic) : Z :=
  if 0 <=? expo x then mant x * 2 ^ expo x else mant x / 2 ^ (- expo x).

(** The rational a dyadic stands for. *)
Definition to_Q (x : dyadic) : Q := (inject_Z (mant x) * 2 ^ expo x)%Q.

(** The finite numbers of the format. *)
Definition is_double (x : dyadic) : Prop :=
  Z.abs (mant x) < 2 ^ 53 ∧ -1074 ≤ expo x ≤ 971.

(** What [Math.random()] promises: a binary64 number in [0, 1). *)
Definition unit_interval (r : dyadic) : Prop :=
  is_double r ∧ (0 <= to_Q r)%Q ∧ (to_Q r < 1)%Q.

End F64.

(** ** generateUsername *)

(** [Math.random()] is an input of the model: [Draws] holds the results of the
    three calls [generateUsername] makes, in the order it makes them. *)
Record Draws : Type := mkDraws {
  draw_number : F64.dyadic;      (* line 14 *)
  draw_adjective : F64.dyadic;   (* line 17 *)
  draw_noun : F64.dyadic         (* line 18 *)
}.

Definition valid_draws (d : Draws) : Prop :=
  F64.unit_interval (draw_number d) /\
  F64.unit_interval (draw_adjective d) /\
  F64.unit_interval (draw_noun d).

Definition adjectives : list string :=
  ["Swift"; "Brave"; "Clever"; "Mighty"; "Silent"; "Witty"; "Bold"; "Eager"].

Definition nouns : list string :=
  ["Tiger"; "Eagle"; "Shark"; "Wolf"; "Falcon"; "Panda"; "Dragon"; "Hawk"].

(** [arr[i]] for an integral index: [undefined] outside the array. *)
Definition index (arr : list string) (i : Z) : option string :=
  if bool_decide (i < 0) then None else arr !! Z.to_nat i.

(** [`${x}`] for an array element that may be [undefined]. *)
Definition interpolate (x : option string) : string := default "undefined" x.

(** [Math.floor(r * arr.length)] *)
Definition random_index (r : F64.dyadic) (arr : list string) : Z :=
  F64.floor (F64.mul r (F64.of_Z (Z.of_nat (length arr)))).

Definition generateUsername (d : Draws) : string :=
  let randomNumber :=
    F64.floor (F64.add (F64.of_Z 1000) (F64.mul (draw_number d) (F64.of_Z 9000))) in
  let randomAdjective := index adjectives (random_index (draw_adjective d) adjectives) in
  let randomNoun := index nouns (random_index (draw_noun d) nouns) in
  interpolate randomAdjective +:+ interpolate randomNoun +:+ pretty randomNumber.

Definition is_digit (c : Ascii.ascii) : bool :=
  let n := Ascii.N_of_ascii c in ((48 <=? n) && (n <=? 57))%N.

Fixpoint all_digits (t : string) : bool :=
  match t with
  | EmptyString => true
  | String c t' => is_digit c && all_digits t'
  end.

(** A string of exactly four decimal digits. *)
Definition four_digits (t : string) : bool :=
  (String.length t =? 4)%nat && all_digits t.

(** The shape of a generated name: an adjective, a noun and a numeral of a
    number between 1000 and 9999. *)
Definition generated_name (t : string) : Prop :=
  ∃ (a n : string) (k : Z),
    a ∈ adjectives ∧ n ∈ nouns ∧ 1000 ≤ k ≤ 9999 ∧
    four_digits (pretty k) = true ∧
    t = a +:+ n +:+ pretty k.

(** ** The document service *)

(** The document service ([strapi.documents]) is the host framework's; the
    repository only calls it.  It is modelled after the interface the
    specification gives for it: a collection is an ordered sequence of
    documents, [findMany] lists the documents whose back-reference equals the
    filter value, [create] inserts a document under an identifier of the
    store's choosing, and [delete] removes the document with the given
    identifier.  Calls that fail inside the service are not modelled. *)

(** Document identifiers are opaque and assigned by the store. *)
Definition DocId : Type := N.

(** The [data] of a [create] call on [api::user-profile.user-profile]. *)
Record ProfileData : Type := mkData {
  data_user : value;
  data_fullName : value;
  data_bio : value
}.

Record Profile : Type := mkProfile {
  documentId : DocId;
  user : value;
  fullName : value;
  bio : value
}.

(** The profile collection, in the order [findMany] lists it, and the next
    identifier the store hands out. *)
Record Store : Type := mkStore {
  docs : list Profile;
  nextDocumentId : DocId
}.

(** Modelled from the spec: the filter [{ user: { id: { $eq: q } } }] of the
    host's [findMany], an equality predicate on the back-reference.  A filter
    value that is no identifier, [undefined] in particular, matches no
    document. *)
Definition references (q : value) (p : Profile) : Prop := same_id (user p) q.

#[global] Instance references_dec q p : Decision (references q p).
Proof. unfold references. apply _. Defined.

Definition profiles_of (q : value) (s : Store) : list Profile :=
  filter (references q) (docs s).

Definition stored (id : DocId) (d : ProfileData) : Profile :=
  {| documentId := id; user := data_user d;
     fullName := data_fullName d; bio := data_bio d |}.

Definition insert_profile (d : ProfileData) (s : Store) : Store :=
  {| docs := docs s ++ [stored (nextDocumentId s) d];
     nextDocumentId := N.succ (nextDocumentId s) |}.

Definition remove_document (id : DocId) (s : Store) : Store :=
  {| docs := filter (λ p, documentId p ≠ id) (docs s);
     nextDocumentId := nextDocumentId s |}.

(** Identifiers handed out by the store are pairwise distinct and older than
    the next one. *)
Definition well_formed (s : Store) : Prop :=
  NoDup (documentId <$> docs s) /\
  Forall (λ p, (documentId p < nextDocumentId s)%N) (docs s).

(** ** Handler computations *)

Inductive StoreOp : Type :=
  | OpFindMany (q : value)
  | OpCreate (d : ProfileData)
  | OpDelete (id : DocId).

Definition is_mutation (o : StoreOp) : Prop :=
  match o with
  | OpFindMany _ => False
  | OpCreate _ | OpDelete _ => True
  end.

#[global] Instance is_mutation_dec o : Decision (is_mutation o).
Proof. destruct o; simpl; apply _. Defined.

Definition mutations (l : list StoreOp) : list StoreOp := filter is_mutation l.

Inductive Error : Type := TypeError.

Inductive Outcome (A : Type) : Type :=
  | Returned (a : A)
  | Thrown (e : Error).
Arguments Returned {A} a.
Arguments Thrown {A} e.

(** How a computation ends: its outcome, the store it leaves behind and the
    document-service calls it made, oldest first. *)
Record Run (A : Type) : Type := mkRun {
  outcome : Outcome A;
  after : Store;
  ops : list StoreOp
}.
Arguments mkRun {A} _ _ _.
Arguments outcome {A} _.
Arguments after {A} _.
Arguments ops {A} _.

Definition M (A : Type) : Type := Store -> Run A.

#[global] Instance M_ret : MRet M := λ A a s, mkRun (Returned a) s [].

#[global] Instance M_bind : MBind M := λ A B f m s,
  let r := m s in
  match outcome r with
  | Returned a =>
      let r' := f a (after r) in
      mkRun (outcome r') (after r') (ops r ++ ops r')
  | Thrown e => mkRun (Thrown e) (after r) (ops r)
  end.

Definition throw {A : Type} (e : Error) : M A := λ s, mkRun (Thrown e) s [].

(** Modelled from the spec: the host's
    [strapi.documents("api::user-profile.user-profile").findMany({ filters })],
    which returns the matching documents in the order of the collection. *)
Definition findMany (q : value) : M (list Profile) :=
  λ s, mkRun (Returned (profiles_of q s)) s [OpFindMany q].

(** Modelled from the spec: the host's
    [strapi.documents("api::user-profile.user-profile").create({ data })],
    which inserts a new document and returns it. *)
Definition create (d : ProfileData) : M Profile :=
  λ s, mkRun (Returned (stored (nextDocumentId s) d)) (insert_profile d s) [OpCreate d].

(** Modelled from the spec: the host's
    [strapi.documents("api::user-profile.user-profile").delete({ documentId })],
    which removes the document with the given identifier. *)
Definition delete (id : DocId) : M unit :=
  λ s, mkRun (Returned tt) (remove_document id s) [OpDelete id].

(** [v.k]: throws on [undefined] and [null]. *)
Definition member (v : value) (k : string) : M value :=
  if nullish v then throw TypeError else mret (prop v k).

(** [const { ... } = v]: throws on [undefined] and [null], otherwise the
    bound names are read off [v] as properties. *)
Definition destructure (v : value) : M value :=
  if nullish v then throw TypeError else mret v.

(** ** The helpers and the two lifecycle callbacks *)

(** [console.log] calls are left out: they touch neither the store nor the
    control flow. *)

Definition checkIfUserProfileExists (userId : value) : M (list Profile) :=
  findMany userId.

Definition createUserProfile (userId fullName bio : value) : M unit :=
  userProfile ← checkIfUserProfileExists userId;
  if bool_decide (0 < length userProfile)%nat then mret tt
  else
    _ ← create {| data_user := userId; data_fullName := fullName; data_bio := bio |};
    mret tt.

Definition deleteUserProfile (userId : value) : M unit :=
  userProfile ← checkIfUserProfileExists userId;
  if bool_decide (0 < length userProfile)%nat then
    match userProfile !! 0%nat with
    | Some first => delete (documentId first)
    | None => throw TypeError
    end
  else mret tt.

Definition afterCreate (rnd : Draws) (event : value) : M unit :=
  fields ← destructure event;
  let result := prop fields "result" in
  let params := prop fields "params" in
  let fullName := logical_or (prop (prop params "data") "fullName") (VStr (generateUsername rnd)) in
  let bio := logical_or (prop (prop params "data") "bio") (VStr "No bio yet") in
  userId ← member result "id";
  createUserProfile userId fullName bio.

Definition beforeDelete (event : value) : M unit :=
  fields ← destructure event;
  let params := prop fields "params" in
  let idToDelete := prop (prop params "where") "id" in
  deleteUserProfile idToDelete.

(** The identifier each callback works on. *)
Definition created_id (event : value) : value := prop (prop event "result") "id".
Definition deleted_id (event : value) : value :=
  prop (prop (prop event "params") "where") "id".

(** The chosen display name and biography of a creation event. *)
Definition chosen_fullName (rnd : Draws) (event : value) : value :=
  logical_or (prop (prop (prop event "params") "data") "fullName") (VStr (generateUsername rnd)).
Definition chosen_bio (event : value) : value :=
  logical_or (prop (prop (prop event "params") "data") "bio") (VStr "No bio yet").

(** ** Sequences of lifecycle events *)

Inductive Call : Type :=
  | OnUserCreated (rnd : Draws) (event : value)
  | OnUserDeleting (event : value).

Definition handle (c : Call) : M unit :=
  match c with
  | OnUserCreated rnd event => afterCreate rnd event
  | OnUserDeleting event => beforeDelete event
  end.

(** Handlers run one after the other, each to completion; a handler that
    throws leaves the store as it was at the throw. *)
Definition dispatch (cs : list Call) (s : Store) : Store :=
  foldl (λ s c, after (handle c s)) s cs.

(** At most one profile per user identifier. *)
Definition at_most_one (s : Store) : Prop :=
  ∀ uid, is_identifier uid → (length (profiles_of uid s) ≤ 1)%nat.

(** Exactly one profile of the collection has [uid] as its back-reference. *)
Definition exactly_one_of (uid : value) (l : list Profile) : Prop :=
  ∃ l1 p l2, l = l1 ++ p :: l2 ∧ user p = uid ∧ ∀ q, q ∈ l1 ++ l2 → user q ≠ uid.

(** Two creation events for the same user identifier, handled one after the
    other from store [s], leave exactly one profile of that user, and the
    second handler changes nothing. *)
Definition idempotent_creation
    (uid : value) (rnd1 rnd2 : Draws) (event1 event2 : value) (s : Store) : Prop :=
  let first := afterCreate rnd1 event1 s in
  let second := afterCreate rnd2 event2 (after first) in
  length (profiles_of uid (after second)) = 1%nat ∧
  after second = after first ∧
  mutations (ops second) = [].

(** ** Sample data *)

Definition emptyStore : Store := {| docs := []; nextDocumentId := 0%N |}.

Definition scenarioA : value :=
  VObj {[ "result" := VObj {[ "id" := VNum 42 ]};
          "params" := VObj {[ "data" := VObj {[ "fullName" := VStr "Ada Lovelace";
                                                "bio" := VStr "Mathematician" ]} ]} ]}.

Definition scenarioB : value :=
  VObj {[ "result" := VObj {[ "id" := VNum 7 ]};
          "params" := VObj {[ "data" := VObj ∅ ]} ]}.

(** The deletion event [{ params: { where: { id } } }]. *)
Definition deletion_of (id : value) : value :=
  VObj {[ "params" := VObj {[ "where" := VObj {[ "id" := id ]} ]} ]}.

(** Three draws of 0.5. *)
Definition halves : Draws :=
  mkDraws (F64.mk 1 (-1)) (F64.mk 1 (-1)) (F64.mk 1 (-1)).

Definition sampleCalls : list Call :=
  [OnUserCreated halves scenarioA; OnUserCreated halves scenarioB;
   OnUserCreated halves scenarioA; OnUserDeleting (deletion_of (VNum 42))].

(** A collection in which user 7 already has two profiles. *)
Definition duplicated : Store :=
  {| docs := [mkProfile 0%N (VNum 7) (VStr "BraveWolf1234") (VStr "No bio yet");
              mkProfile 1%N (VNum 7) (VStr "BoldHawk4321") (VStr "No bio yet")];
     nextDocumentId := 2%N |}.

(** The collection after Scenario A, and one where user 42 has two profiles. *)
Definition oneProfile : Store :=
  {| docs := [mkProfile 0%N (VNum 42) (VStr "Ada Lovelace") (VStr "Mathematician")];
     nextDocumentId := 1%N |}.

Definition twoProfiles : Store :=
  {| docs := [mkProfile 0%N (VNum 42) (VStr "Ada Lovelace") (VStr "Mathematician");
              mkProfile 1%N (VNum 7) (VStr "SilentFalcon5500") (VStr "No bio yet");
              mkProfile 2%N (VNum 42) (VStr "EagerPanda2048") (VStr "No bio yet")];
     nextDocumentId := 3%N |}.

(** A creation event that supplies the empty string as [fullName]. *)
Definition emptyNameEvent : value :=
  VObj {[ "result" := VObj {[ "id" := VNum 7 ]};
          "params" := VObj {[ "data" := VObj {[ "fullName" := VStr "";
                                                "bio" := VStr "Sailor" ]} ]} ]}.

(** A draw that yields the number [k]: the binary64 number just below
    [(k - 1000 + 1/2) / 9000]. *)
Definition draw_for (k : Z) : F64.dyadic :=
  {| F64.mant := (2 * (k - 1000) + 1) * 2 ^ 52 / 9000; F64.expo := -53 |}.

(** * Examples *)

Example scenarioB_name : generateUsername halves = "SilentFalcon5500".
Proof. vm_compute. reflexivity. Qed.

Example scenarioA_run :
  afterCreate halves scenarioA emptyStore =
  mkRun (Returned tt)
    {| docs := [mkProfile 0%N (VNum 42) (VStr "Ada Lovelace") (VStr "Mathematician")];
       nextDocumentId := 1%N |}
    [OpFindMany (VNum 42);
     OpCreate (mkData (VNum 42) (VStr "Ada Lovelace") (VStr "Mathematician"))].
Proof. vm_compute. reflexivity. Qed.

Example scenarioB_run :
  docs (after (afterCreate halves scenarioB emptyStore)) =
  [mkProfile 0%N (VNum 7) (VStr "SilentFalcon5500") (VStr "No bio yet")].
Proof. vm_compute. reflexivity. Qed.

(** Scenario C: creating user 7 twice leaves one profile of user 7. *)
Example scenarioC_run :
  profiles_of (VNum 7)
    (dispatch [OnUserCreated halves scenarioB; OnUserCreated halves scenarioB] emptyStore) =
  [mkProfile 0%N (VNum 7) (VStr "SilentFalcon5500") (VStr "No bio yet")].
Proof. vm_compute. reflexivity. Qed.

(** Scenario D: deleting user 42 removes the profile of user 42. *)
Example scenarioD_run :
  beforeDelete (deletion_of (VNum 42)) oneProfile =
  mkRun (Returned tt) {| docs := []; nextDocumentId := 1%N |}
    [OpFindMany (VNum 42); OpDelete 0%N].
Proof. vm_compute. reflexivity. Qed.

(** Scenario E: deleting user 99, who has no profile, changes nothing. *)
Example scenarioE_run :
  beforeDelete (deletion_of (VNum 99)) oneProfile =
  mkRun (Returned tt) oneProfile [OpFindMany (VNum 99)].
Proof. vm_compute. reflexivity. Qed.

(** The largest draw, [1 - 2 ^ -53]: the product rounds to [9000 - 2 ^ -39],
    not to 9000, and the number is 9999. *)
Example largest_draw_product :
  F64.mul (F64.mk (2 ^ 53 - 1) (-53)) (F64.of_Z 9000) = F64.mk (9000 * 2 ^ 39 - 1) (-39).
Proof. vm_compute. reflexivity. Qed.

Example largest_draw_number :
  F64.floor (F64.add (F64.of_Z 1000) (F64.mul (F64.mk (2 ^ 53 - 1) (-53)) (F64.of_Z 9000)))
  = 9999.
Proof. vm_compute. reflexivity. Qed.

Example largest_draw_index :
  random_index (F64.mk (2 ^ 53 - 1) (-53)) adjectives = 7.
Proof. vm_compute. reflexivity. Qed.

(** The smallest positive draw, [2 ^ -1074]: the sum rounds to 1000. *)
Example smallest_draw_number :
  F64.add (F64.of_Z 1000) (F64.mul (F64.mk 1 (-1074)) (F64.of_Z 9000)) =
  F64.mk (1000 * 2 ^ 43) (-43).
Proof. vm_compute. reflexivity. Qed.

(** * Properties *)

(** ** Binary64 arithmetic *)

Module F64Facts.
Import F64.

Lemma pow2_pos (k : Z) : (0 < 2 ^ k)%Q.
Proof. by apply Qpower_0_lt. Qed.

Lemma pow2_add (a b : Z) : (2 ^ (a + b) == 2 ^ a * 2 ^ b)%Q.
Proof. by apply Qpower_plus. Qed.

Lemma pow2_Z (k : Z) : 0 ≤ k → (2 ^ k == inject_Z (2 ^ k))%Q.
Proof. intros Hk. by rewrite Zpower_Qpower. Qed.

Lemma pow2_le (a b : Z) : a ≤ b → (2 ^ a <= 2 ^ b)%Q.
Proof. intros Hab. by apply Qpower_le_compat_l. Qed.

Lemma pow2_lt_inv (a b : Z) : (2 ^ a < 2 ^ b)%Q → a < b.
Proof. intros Hab. by eapply Qpower_lt_compat_l_inv. Qed.

(** A quotient below the midpoint above [n] rounds to [n] at most, one above
    the midpoint below [n] to [n] at least. *)
Lemma half_even_below (m k n : Z) :
  0 < k → 2 * m < (2 * n + 1) * 2 ^ k → half_even m k ≤ n.
Proof.
  intros Hk Hm. unfold half_even.
  assert (Hh : 0 < 2 ^ (k - 1)) by (apply Z.pow_pos_nonneg; lia).
  assert (Hp : 2 ^ k = 2 * 2 ^ (k - 1)).
  { rewrite <- Z.pow_succ_r by lia. f_equal. lia. }
  rewrite Hp in *.
  pose proof (Z.div_mod m (2 * 2 ^ (k - 1)) ltac:(lia)) as Hdm.
  pose proof (Z.mod_pos_bound m (2 * 2 ^ (k - 1)) ltac:(lia)) as Hr.
  repeat case_match; nia.
Qed.

Lemma half_even_above (m k n : Z) :
  0 < k → (2 * n - 1) * 2 ^ k < 2 * m → n ≤ half_even m k.
Proof.
  intros Hk Hm. unfold half_even.
  assert (Hh : 0 < 2 ^ (k - 1)) by (apply Z.pow_pos_nonneg; lia).
  assert (Hp : 2 ^ k = 2 * 2 ^ (k - 1)).
  { rewrite <- Z.pow_succ_r by lia. f_equal. lia. }
  rewrite Hp in *.
  pose proof (Z.div_mod m (2 * 2 ^ (k - 1)) ltac:(lia)) as Hdm.
  pose proof (Z.mod_pos_bound m (2 * 2 ^ (k - 1)) ltac:(lia)) as Hr.
  repeat case_match; nia.
Qed.

(** Where a non-zero number lies. *)
Lemma binade (x : dyadic) :
  0 < mant x →
  (2 ^ (Z.log2 (mant x) + expo x) <= to_Q x)%Q ∧
  (to_Q x < 2 ^ (Z.log2 (mant x) + expo x + 1))%Q.
Proof.
  intros Hm. unfold to_Q.
  destruct (Z.log2_spec (mant x) Hm) as [Hlo Hhi].
  pose proof (Z.log2_nonneg (mant x)) as Hl.
  replace (Z.log2 (mant x) + expo x + 1) with (Z.succ (Z.log2 (mant x)) + expo x) by lia.
  rewrite !pow2_add.
  rewrite (pow2_Z (Z.log2 (mant x))), (pow2_Z (Z.succ (Z.log2 (mant x)))) by lia.
  split.
  - apply Qmult_le_compat_r; [by rewrite <- Zle_Qle | apply Qlt_le_weak, pow2_pos].
  - apply Qmult_lt_compat_r; [apply pow2_pos | by rewrite <- Zlt_Qlt].
Qed.

(** Rounding is to the nearest multiple of the unit in the last place. *)
Lemma round_near (x : dyadic) (n : Z) :
  mant x ≠ 0 →
  ((2 * to_Q x < inject_Z (2 * n + 1) * 2 ^ last_place x)%Q →
   (to_Q (round x) <= inject_Z n * 2 ^ last_place x)%Q) ∧
  ((inject_Z (2 * n - 1) * 2 ^ last_place x < 2 * to_Q x)%Q →
   (inject_Z n * 2 ^ last_place x <= to_Q (round x))%Q).
Proof.
  intros Hm. unfold round. rewrite (proj2 (Z.eqb_neq _ _) Hm).
  set (u := last_place x).
  pose proof (pow2_pos (expo x)) as Hpos. pose proof (pow2_pos u) as Hpos'.
  destruct (Z.leb_spec u (expo x)) as [Hu|Hu].
  - set (k := expo x - u).
    assert (Hscale : (2 ^ expo x == inject_Z (2 ^ k) * 2 ^ u)%Q).
    { rewrite <- pow2_Z by (unfold k; lia). rewrite <- pow2_add.
      by replace (k + u) with (expo x) by (unfold k; lia). }
    unfold to_Q. rewrite !Hscale, !Qmult_assoc, <- !inject_Z_mult.
    change 2%Q with (inject_Z 2). rewrite <- !inject_Z_mult.
    rewrite !Qmult_le_r, !Qmult_lt_r by done. rewrite <- !Zle_Qle, <- !Zlt_Qlt.
    lia.
  - set (k := u - expo x). assert (Hk : 0 < k) by (unfold k; lia).
    assert (Hscale : (2 ^ u == inject_Z (2 ^ k) * 2 ^ expo x)%Q).
    { rewrite <- pow2_Z by lia. rewrite <- pow2_add.
      by replace (k + expo x) with u by (unfold k; lia). }
    unfold to_Q; simpl. rewrite !Hscale, !Qmult_assoc, <- !inject_Z_mult.
    change 2%Q with (inject_Z 2). rewrite <- !inject_Z_mult.
    rewrite !Qmult_le_r, !Qmult_lt_r by done. rewrite <- !Zle_Qle, <- !Zlt_Qlt.
    split; intros H.
    + apply Z.mul_le_mono_nonneg_r; [lia|]. by apply half_even_below.
    + apply Z.mul_le_mono_nonneg_r; [lia|]. by apply half_even_above.
Qed.

Lemma midpoint_above (n : Z) (w : Q) :
  (inject_Z (2 * n + 1) * w == 2 * (inject_Z n * w) + w)%Q.
Proof. rewrite inject_Z_plus, inject_Z_mult. change (inject_Z 2) with 2%Q. ring. Qed.

Lemma midpoint_below (n : Z) (w : Q) :
  (inject_Z (2 * n - 1) * w == 2 * (inject_Z n * w) - w)%Q.
Proof.
  replace (2 * n - 1) with (2 * n + 1 - 2) by lia.
  unfold Z.sub. rewrite (inject_Z_plus (2 * n + 1)), Qmult_plus_distr_l, midpoint_above.
  change (inject_Z (- (2))) with (- (2))%Q. ring.
Qed.

Lemma last_place_pos (x : dyadic) :
  0 < mant x → last_place x = Z.max (Z.log2 (mant x) + expo x - 52) (-1074).
Proof. intros Hm. unfold last_place. by rewrite Z.abs_eq by lia. Qed.

(** An upper bound in the binade [2 ^ t, 2 ^ (t + 1)) survives rounding when
    the exact value lies below the midpoint above it. *)
Lemma round_le_top (x : dyadic) (t n : Z) :
  0 < mant x → -1022 ≤ t →
  (to_Q x < 2 ^ (t + 1))%Q →
  (2 * to_Q x < inject_Z (2 * n + 1) * 2 ^ (t - 52))%Q →
  (2 ^ t <= inject_Z n * 2 ^ (t - 52))%Q →
  (to_Q (round x) <= inject_Z n * 2 ^ (t - 52))%Q.
Proof.
  intros Hm Ht Hlt Hmid Hn.
  destruct (binade x Hm) as [Hlo Hhi].
  set (e := Z.log2 (mant x) + expo x) in *.
  assert (He : e ≤ t).
  { cut (e < t + 1); [lia|]. apply pow2_lt_inv. by eapply Qle_lt_trans. }
  pose proof (last_place_pos x Hm) as Hu. fold e in Hu.
  destruct (decide (e = t)) as [->|Hne].
  - replace (Z.max (t - 52) (-1074)) with (t - 52) in Hu by lia.
    rewrite <- Hu in *. apply round_near; [lia|done].
  - eapply Qle_trans; [|exact Hn].
    set (u := last_place x) in *.
    assert (Hpow : (inject_Z (2 ^ (t - u)) * 2 ^ u == 2 ^ t)%Q).
    { rewrite <- pow2_Z by lia. rewrite <- pow2_add. by replace (t - u + u) with t by lia. }
    rewrite <- Hpow. apply round_near; [lia|]. fold u.
    rewrite midpoint_above, Hpow.
    pose proof (pow2_pos u). pose proof (pow2_le (e + 1) t ltac:(lia)). lra.
Qed.

(** An integer lower bound survives rounding. *)
Lemma round_ge_int (x : dyadic) (a : Z) :
  0 < mant x → (to_Q x < 2 ^ 53)%Q →
  (inject_Z a <= to_Q x)%Q → (inject_Z a <= to_Q (round x))%Q.
Proof.
  intros Hm Hlt Ha.
  destruct (binade x Hm) as [Hlo Hhi].
  set (e := Z.log2 (mant x) + expo x) in *.
  assert (He : e < 53) by (apply pow2_lt_inv; by eapply Qle_lt_trans).
  pose proof (last_place_pos x Hm) as Hu. fold e in Hu.
  set (u := last_place x) in *.
  assert (Hpow : (inject_Z (a * 2 ^ (- u)) * 2 ^ u == inject_Z a)%Q).
  { rewrite inject_Z_mult, <- pow2_Z by lia. rewrite <- Qmult_assoc, <- pow2_add.
    replace (- u + u) with 0 by lia. simpl. ring. }
  rewrite <- Hpow. apply round_near; [lia|]. fold u.
  rewrite midpoint_below, Hpow.
  pose proof (pow2_pos u). lra.
Qed.

Lemma floor_spec (x : dyadic) : floor x = Qfloor (to_Q x).
Proof.
  unfold floor, to_Q. destruct (Z.leb_spec 0 (expo x)) as [He|He].
  - rewrite pow2_Z by done. by rewrite <- inject_Z_mult, Qfloor_Z.
  - rewrite Zdiv_Qdiv. apply Qfloor_comp. unfold Qdiv.
    rewrite <- pow2_Z by lia. rewrite <- Qpower_opp.
    by replace (- - expo x) with (expo x) by lia.
Qed.

Lemma to_Q_sign (x : dyadic) :
  ((0 <= to_Q x)%Q → 0 ≤ mant x) ∧ ((0 < to_Q x)%Q → 0 < mant x).
Proof.
  unfold to_Q. pose proof (pow2_pos (expo x)) as Hp.
  split; intros H.
  - destruct (Z.lt_ge_cases (mant x) 0) as [Hm|Hm]; [|done].
    rewrite Zlt_Qlt in Hm. change (inject_Z 0) with 0%Q in Hm.
    assert (inject_Z (mant x) * 2 ^ expo x < 0 * 2 ^ expo x)%Q
      by (by apply Qmult_lt_compat_r). lra.
  - destruct (Z.lt_ge_cases 0 (mant x)) as [Hm|Hm]; [done|].
    rewrite Zle_Qle in Hm. change (inject_Z 0) with 0%Q in Hm.
    assert (inject_Z (mant x) * 2 ^ expo x <= 0 * 2 ^ expo x)%Q
      by (apply Qmult_le_compat_r; [done|lra]). lra.
Qed.

Lemma to_Q_mul (x y : dyadic) :
  (to_Q {| mant := mant x * mant y; expo := expo x + expo y |} == to_Q x * to_Q y)%Q.
Proof. unfold to_Q; simpl. rewrite inject_Z_mult, pow2_add. ring. Qed.

Lemma to_Q_add (x y : dyadic) :
  (to_Q {| mant := mant x * 2 ^ (expo x - Z.min (expo x) (expo y)) +
                   mant y * 2 ^ (expo y - Z.min (expo x) (expo y));
           expo := Z.min (expo x) (expo y) |} == to_Q x + to_Q y)%Q.
Proof.
  unfold to_Q; simpl. set (e := Z.min (expo x) (expo y)).
  rewrite inject_Z_plus, !inject_Z_mult, <- !pow2_Z by lia.
  rewrite Qmult_plus_distr_l, <- !Qmult_assoc, <- !pow2_add.
  by replace (expo x - e + e) with (expo x) by lia;
     replace (expo y - e + e) with (expo y) by lia.
Qed.

Lemma to_Q_of_Z (n : Z) : (to_Q (of_Z n) == inject_Z n)%Q.
Proof. unfold to_Q; simpl. ring. Qed.

(** The largest binary64 number below 1 is [1 - 2 ^ -53]. *)
Lemma unit_interval_top (r : dyadic) :
  unit_interval r → (to_Q r <= 1 - 2 ^ (-53))%Q.
Proof.
  intros ([Hm He] & H0 & H1).
  apply to_Q_sign in H0 as Hpos. rewrite Z.abs_eq in Hm by done.
  unfold to_Q in *. pose proof (pow2_pos (expo r)) as Hp.
  assert (Htop : (1 - 2 ^ (-53) == inject_Z (2 ^ 53 - 1) * 2 ^ (-53))%Q) by reflexivity.
  rewrite Htop. destruct (Z.le_gt_cases (-53) (expo r)) as [Hc|Hc].
  - set (k := expo r + 53).
    assert (Hscale : (2 ^ expo r == inject_Z (2 ^ k) * 2 ^ (-53))%Q).
    { rewrite <- pow2_Z by (unfold k; lia). rewrite <- pow2_add.
      by replace (k + -53) with (expo r) by (unfold k; lia). }
    rewrite Hscale, Qmult_assoc, <- inject_Z_mult in *.
    apply Qmult_le_compat_r; [|by vm_compute].
    rewrite <- Zle_Qle. cut (mant r * 2 ^ k < 2 ^ 53); [lia|].
    rewrite Zlt_Qlt.
    apply (Qmult_lt_r _ _ (2 ^ (-53))); [done|].
    eapply Qlt_le_trans; [exact H1|]. by vm_compute.
  - apply Qle_trans with (inject_Z (2 ^ 53 - 1) * 2 ^ expo r)%Q.
    + apply Qmult_le_compat_r; [|lra]. rewrite <- Zle_Qle. lia.
    + apply Qmult_le_l; [by vm_compute|]. apply pow2_le. lia.
Qed.

(** A draw times a small positive integer constant. *)
Lemma mul_draw_range (r : dyadic) (c t n : Z) :
  unit_interval r → 0 < c → -1022 ≤ t ≤ 52 →
  (inject_Z c <= 2 ^ (t + 1))%Q →
  (2 * (inject_Z c * (1 - 2 ^ (-53))) < inject_Z (2 * n + 1) * 2 ^ (t - 52))%Q →
  (2 ^ t <= inject_Z n * 2 ^ (t - 52))%Q →
  (0 <= to_Q (mul r (of_Z c)))%Q ∧
  (to_Q (mul r (of_Z c)) <= inject_Z n * 2 ^ (t - 52))%Q.
Proof.
  intros Hr Hc Ht Hsize Hmid Hn.
  pose proof (unit_interval_top r Hr) as Htop.
  destruct Hr as (_ & H0 & H1). apply to_Q_sign in H0 as Hm.
  unfold mul. set (x := {| mant := mant r * mant (of_Z c); expo := expo r + expo (of_Z c) |}).
  assert (Hx : (to_Q x == inject_Z c * to_Q r)%Q).
  { unfold x. rewrite to_Q_mul, to_Q_of_Z. apply Qmult_comm. }
  assert (Hcq : (0 < inject_Z c)%Q) by (change 0%Q with (inject_Z 0); by rewrite <- Zlt_Qlt).
  assert (Hlt : (to_Q x < inject_Z c)%Q).
  { rewrite Hx. rewrite <- (Qmult_1_r (inject_Z c)) at 2. by apply Qmult_lt_l. }
  assert (Hle : (to_Q x <= inject_Z c * (1 - 2 ^ (-53)))%Q).
  { rewrite Hx. by apply Qmult_le_l. }
  assert (Hge : (inject_Z 0 <= to_Q x)%Q).
  { rewrite Hx. apply Qmult_le_0_compat; [by apply Qlt_le_weak|done]. }
  pose proof (pow2_pos t) as Hpt.
  destruct (decide (mant r = 0)) as [Hz|Hz].
  - assert (Hzero : round x = x) by (unfold round, x; simpl; by rewrite Hz).
    assert (Hr0 : (to_Q r == 0)%Q) by (unfold to_Q; rewrite Hz; apply Qmult_0_l).
    rewrite Hzero, Hx, Hr0, Qmult_0_r. lra.
  - assert (Hmx : 0 < mant x) by (unfold x; simpl; nia).
    split.
    + apply (round_ge_int x 0 Hmx); [|done].
      eapply Qlt_le_trans; [exact Hlt|]. eapply Qle_trans; [exact Hsize|].
      apply pow2_le. lia.
    + apply round_le_top; try done; try lia; lra.
Qed.

(** [1000 + p] for a product [p] below 9000. *)
Lemma add_1000_range (p : dyadic) :
  (0 <= to_Q p)%Q → (to_Q p <= 9000 - 2 ^ (-39))%Q →
  (1000 <= to_Q (add (of_Z 1000) p))%Q ∧
  (to_Q (add (of_Z 1000) p) <= 10000 - 2 ^ (-39))%Q.
Proof.
  intros H0 Hp. unfold add.
  set (x := {| mant := _; expo := _ |}).
  assert (Hx : (to_Q x == 1000 + to_Q p)%Q).
  { unfold x. rewrite to_Q_add, to_Q_of_Z. reflexivity. }
  assert (H39 : (2 ^ (-39) == 1 # 549755813888)%Q) by reflexivity.
  assert (Hmx : 0 < mant x) by (apply to_Q_sign; lra).
  split.
  - apply (round_ge_int x 1000 Hmx); [|change (inject_Z 1000) with 1000%Q; lra].
    apply Qlt_trans with 10000%Q; [lra|by vm_compute].
  - assert (Htop : (10000 - 2 ^ (-39) == inject_Z (10000 * 2 ^ 39 - 1) * 2 ^ (13 - 52))%Q)
      by reflexivity.
    rewrite Htop. apply round_le_top; try done.
    + apply Qlt_trans with 10000%Q; [lra|by vm_compute].
    + rewrite midpoint_above, <- Htop. change (2 ^ (13 - 52))%Q with (2 ^ (-39))%Q. lra.
Qed.

Lemma random_number_range (r : dyadic) :
  unit_interval r → 1000 ≤ floor (add (of_Z 1000) (mul r (of_Z 9000))) ≤ 9999.
Proof.
  intros Hr.
  destruct (mul_draw_range r 9000 13 (9000 * 2 ^ 39 - 1) Hr) as [H0 Hp];
    try done; try lia.
  destruct (add_1000_range (mul r (of_Z 9000)) H0) as [Hlo Hhi].
  { eapply Qle_trans; [exact Hp|]. by vm_compute. }
  rewrite floor_spec. split.
  - change 1000 with (Qfloor (inject_Z 1000)). by apply Qfloor_resp_le.
  - cut (Qfloor (to_Q (add (of_Z 1000) (mul r (of_Z 9000)))) < 10000); [lia|].
    rewrite Zlt_Qlt. eapply Qle_lt_trans; [apply Qfloor_le|].
    eapply Qle_lt_trans; [exact Hhi|]. by vm_compute.
Qed.

Lemma random_index_range (r : dyadic) :
  unit_interval r → 0 ≤ floor (mul r (of_Z 8)) < 8.
Proof.
  intros Hr.
  destruct (mul_draw_range r 8 2 (8 * 2 ^ 50 - 1) Hr) as [H0 Hp]; try done; try lia.
  rewrite floor_spec. split.
  - change 0 with (Qfloor (inject_Z 0)). by apply Qfloor_resp_le.
  - rewrite Zlt_Qlt. eapply Qle_lt_trans; [apply Qfloor_le|].
    eapply Qle_lt_trans; [exact Hp|]. by vm_compute.
Qed.

End F64Facts.

(** ** Identifiers and the back-reference filter *)

Lemma same_id_eq a b : is_identifier b → same_id a b ↔ a = b.
Proof.
  destruct b; simpl; try tauto; intros _; destruct a; simpl;
    split; try tauto; try discriminate; congruence.
Qed.

Lemma references_eq uid p : is_identifier uid → references uid p ↔ user p = uid.
Proof. apply same_id_eq. Qed.

Lemma same_id_identifier a b : same_id a b → is_identifier a ∧ is_identifier b.
Proof. destruct a, b; simpl; tauto. Qed.

Lemma profiles_of_not_identifier uid s : ¬ is_identifier uid → profiles_of uid s = [].
Proof.
  intros Hn. unfold profiles_of.
  induction (docs s) as [|p l IH]; [done|].
  rewrite filter_cons_False; [done|].
  intros H. apply same_id_identifier in H. tauto.
Qed.

Lemma profiles_of_none uid s :
  (∀ q, q ∈ docs s → user q ≠ uid) → profiles_of uid s = [].
Proof.
  intros Hnone. unfold profiles_of.
  induction (docs s) as [|p l IH]; [done|].
  rewrite filter_cons_False.
  - apply IH. intros q Hq. apply Hnone. by right.
  - intros Href. apply (Hnone p); [by left|].
    apply same_id_eq; [|done]. by apply same_id_identifier in Href as [_ ?].
Qed.

Lemma profiles_of_undefined s : profiles_of VUndefined s = [].
Proof. apply profiles_of_not_identifier. simpl. tauto. Qed.

Lemma profiles_of_insert q d s :
  profiles_of q (insert_profile d s) =
  profiles_of q s ++
    (if decide (same_id (data_user d) q) then [stored (nextDocumentId s) d] else []).
Proof.
  unfold profiles_of, insert_profile. simpl.
  rewrite filter_app. f_equal.
Qed.

Lemma profiles_of_remove q id s :
  profiles_of q (remove_document id s) =
  filter (λ p, documentId p ≠ id) (profiles_of q s).
Proof.
  unfold profiles_of, remove_document. simpl.
  rewrite !list_filter_filter. apply list_filter_iff. tauto.
Qed.

(** ** Runs of the helpers *)

Lemma run_eta {A} (r : Run A) : mkRun (outcome r) (after r) ([] ++ ops r) = r.
Proof. by destruct r. Qed.

Lemma bind_mret {A B} (a : A) (f : A → M B) s : (mret a ≫= f) s = f a s.
Proof. unfold mbind, M_bind, mret, M_ret. simpl. apply run_eta. Qed.

Lemma bind_throw {A B} e (f : A → M B) s :
  (throw e ≫= f) s = mkRun (Thrown e) s [].
Proof. reflexivity. Qed.

Ltac run_helper :=
  unfold createUserProfile, deleteUserProfile, checkIfUserProfileExists,
    findMany, mbind, M_bind; simpl.

Lemma createUserProfile_found uid f b s :
  profiles_of uid s ≠ [] →
  createUserProfile uid f b s = mkRun (Returned tt) s [OpFindMany uid].
Proof.
  intros Hne. run_helper. destruct (profiles_of uid s); [done|].
  rewrite bool_decide_eq_true_2 by (simpl; lia). reflexivity.
Qed.

Lemma createUserProfile_fresh uid f b s :
  profiles_of uid s = [] →
  createUserProfile uid f b s =
  mkRun (Returned tt) (insert_profile (mkData uid f b) s)
    [OpFindMany uid; OpCreate (mkData uid f b)].
Proof.
  intros He. run_helper. rewrite He. reflexivity.
Qed.

Lemma deleteUserProfile_none uid s :
  profiles_of uid s = [] →
  deleteUserProfile uid s = mkRun (Returned tt) s [OpFindMany uid].
Proof.
  intros He. run_helper. rewrite He. reflexivity.
Qed.

Lemma deleteUserProfile_first uid s first others :
  profiles_of uid s = first :: others →
  deleteUserProfile uid s =
  mkRun (Returned tt) (remove_document (documentId first) s)
    [OpFindMany uid; OpDelete (documentId first)].
Proof.
  intros He. run_helper. rewrite He. reflexivity.
Qed.

Lemma nullish_prop v k : nullish (prop v k) = false → nullish v = false.
Proof. by destruct v. Qed.

Lemma afterCreate_throws rnd event s :
  nullish (prop event "result") = true →
  afterCreate rnd event s = mkRun (Thrown TypeError) s [].
Proof.
  intros Hr. unfold afterCreate, destructure, member.
  destruct (nullish event) eqn:He; [apply bind_throw|].
  rewrite bind_mret, Hr. apply bind_throw.
Qed.

Lemma afterCreate_runs rnd event s :
  nullish (prop event "result") = false →
  afterCreate rnd event s =
  createUserProfile (created_id event) (chosen_fullName rnd event) (chosen_bio event) s.
Proof.
  intros Hr. unfold afterCreate, destructure, member.
  rewrite (nullish_prop _ _ Hr), bind_mret, Hr, bind_mret. reflexivity.
Qed.

Lemma beforeDelete_throws event s :
  nullish event = true →
  beforeDelete event s = mkRun (Thrown TypeError) s [].
Proof.
  intros He. unfold beforeDelete, destructure. rewrite He. apply bind_throw.
Qed.

Lemma beforeDelete_runs event s :
  nullish event = false →
  beforeDelete event s = deleteUserProfile (deleted_id event) s.
Proof.
  intros He. unfold beforeDelete, destructure. rewrite He, bind_mret. reflexivity.
Qed.

(** ** generateUsername *)

Lemma pretty_N_char_digit (d : N) : is_digit (pretty_N_char d) = true.
Proof. unfold pretty_N_char. by repeat case_match. Qed.

Ltac lia_div := zify; Z.to_euclidean_division_equations; lia.

(** The numeral of a number from 1000 to 9999 has four digits. *)
Lemma pretty_four_digits (k : Z) : 1000 ≤ k ≤ 9999 → four_digits (pretty k) = true.
Proof.
  intros Hk. destruct k as [|p|p]; try lia.
  change (pretty (Z.pos p)) with (pretty (N.pos p)).
  unfold pretty, pretty_N. rewrite decide_False by done.
  assert (Hx : (1000 ≤ N.pos p ≤ 9999)%N) by lia. revert Hx.
  generalize (N.pos p). intros x Hx.
  rewrite 4!pretty_N_go_step by lia_div.
  replace ((((x `div` 10) `div` 10) `div` 10) `div` 10)%N with 0%N by lia_div.
  rewrite pretty_N_go_0. unfold four_digits. simpl.
  by rewrite !pretty_N_char_digit.
Qed.

Lemma index_in_range (arr : list string) (i : Z) :
  0 ≤ i < Z.of_nat (length arr) → ∃ x, index arr i = Some x ∧ x ∈ arr.
Proof.
  intros Hi. unfold index. rewrite bool_decide_eq_false_2 by lia.
  destruct (lookup_lt_is_Some_2 arr (Z.to_nat i)) as [x Hx]; [lia|].
  exists x. split; [done|]. by eapply list_elem_of_lookup_2.
Qed.

Lemma generateUsername_shape (rnd : Draws) :
  valid_draws rnd → generated_name (generateUsername rnd).
Proof.
  intros (Hn & Ha & Ho). unfold generateUsername.
  destruct (index_in_range adjectives (random_index (draw_adjective rnd) adjectives))
    as (a & -> & Hina); [by apply F64Facts.random_index_range|].
  destruct (index_in_range nouns (random_index (draw_noun rnd) nouns))
    as (n & -> & Hinn); [by apply F64Facts.random_index_range|].
  pose proof (F64Facts.random_number_range _ Hn) as Hk.
  eexists a, n, _. repeat split; try done; try lia. by apply pretty_four_digits.
Qed.

(** ** The at-most-one invariant *)

Lemma at_most_one_empty : at_most_one emptyStore.
Proof. intros uid _. simpl. lia. Qed.

Lemma at_most_one_insert d s :
  profiles_of (data_user d) s = [] →
  at_most_one s → at_most_one (insert_profile d s).
Proof.
  intros Hnone Hinv uid Hid. rewrite profiles_of_insert, length_app.
  case_decide as Hsame; simpl.
  - apply same_id_eq in Hsame; [|done]. subst uid. rewrite Hnone. simpl. lia.
  - specialize (Hinv uid Hid). lia.
Qed.

Lemma at_most_one_remove id s : at_most_one s → at_most_one (remove_document id s).
Proof.
  intros Hinv uid Hid. rewrite profiles_of_remove.
  etrans; [apply length_filter|]. by apply Hinv.
Qed.

(** What a run of [afterCreate] can be. *)
Lemma afterCreate_cases rnd event s :
  afterCreate rnd event s = mkRun (Thrown TypeError) s [] ∨
  (profiles_of (created_id event) s ≠ [] ∧
   afterCreate rnd event s = mkRun (Returned tt) s [OpFindMany (created_id event)]) ∨
  (profiles_of (created_id event) s = [] ∧
   afterCreate rnd event s =
   mkRun (Returned tt)
     (insert_profile
        (mkData (created_id event) (chosen_fullName rnd event) (chosen_bio event)) s)
     [OpFindMany (created_id event);
      OpCreate (mkData (created_id event) (chosen_fullName rnd event) (chosen_bio event))]).
Proof.
  destruct (nullish (prop event "result")) eqn:Hr.
  - left. by apply afterCreate_throws.
  - right. rewrite afterCreate_runs by done.
    destruct (profiles_of (created_id event) s) eqn:Hp.
    + right. split; [done|]. by apply createUserProfile_fresh.
    + left. split; [done|]. apply createUserProfile_found. by rewrite Hp.
Qed.

(** What a run of [beforeDelete] can be. *)
Lemma beforeDelete_cases event s :
  beforeDelete event s = mkRun (Thrown TypeError) s [] ∨
  beforeDelete event s = mkRun (Returned tt) s [OpFindMany (deleted_id event)] ∨
  (∃ first others,
     profiles_of (deleted_id event) s = first :: others ∧
     beforeDelete event s =
     mkRun (Returned tt) (remove_document (documentId first) s)
       [OpFindMany (deleted_id event); OpDelete (documentId first)]).
Proof.
  destruct (nullish event) eqn:He.
  - left. by apply beforeDelete_throws.
  - right. rewrite beforeDelete_runs by done.
    destruct (profiles_of (deleted_id event) s) as [|first others] eqn:Hp.
    + left. by apply deleteUserProfile_none.
    + right. exists first, others. split; [done|]. by eapply deleteUserProfile_first.
Qed.

Lemma afterCreate_preserves rnd event s :
  at_most_one s → at_most_one (after (afterCreate rnd event s)).
Proof.
  intros Hinv.
  destruct (afterCreate_cases rnd event s) as [-> | [[_ ->] | [Hnone ->]]]; simpl; try done.
  by apply at_most_one_insert.
Qed.

Lemma beforeDelete_preserves event s :
  at_most_one s → at_most_one (after (beforeDelete event s)).
Proof.
  intros Hinv.
  destruct (beforeDelete_cases event s) as [-> | [-> | (first & others & _ & ->)]];
    simpl; try done.
  by apply at_most_one_remove.
Qed.

Lemma handle_preserves c s : at_most_one s → at_most_one (after (handle c s)).
Proof.
  destruct c; simpl; [apply afterCreate_preserves | apply beforeDelete_preserves].
Qed.

Lemma dispatch_preserves cs s : at_most_one s → at_most_one (dispatch cs s).
Proof.
  revert s. induction cs as [|c cs IH]; intros s Hinv; simpl; [done|].
  apply IH. by apply handle_preserves.
Qed.

(** C1.  A store that holds at most one profile per user identifier still
    does so after every prefix of any sequence of [afterCreate] and
    [beforeDelete] invocations.  The reason is visible in the calls the
    handlers make: [afterCreate] issues a [create] only for a user the lookup
    found no profile of, and never a [delete]; [beforeDelete] never creates,
    and the collection it leaves is a sublist of the one it found. *)
Theorem at_most_one_profile_invariant (cs : list Call) (s : Store) :
  at_most_one s →
  (∀ n, at_most_one (dispatch (take n cs) s)) ∧
  (∀ rnd event s0 o, o ∈ mutations (ops (afterCreate rnd event s0)) →
     ∃ d, o = OpCreate d ∧ profiles_of (data_user d) s0 = []) ∧
  (∀ event s0,
     docs (after (beforeDelete event s0)) `sublist_of` docs s0 ∧
     ∀ d, OpCreate d ∉ ops (beforeDelete event s0)).
Proof.
  intros Hinv. split; [|split].
  - intros n. by apply dispatch_preserves.
  - intros rnd event s0 o.
    destruct (afterCreate_cases rnd event s0) as [-> | [[_ ->] | [Hnone ->]]];
      unfold mutations; simpl.
    + by intros ?%elem_of_nil.
    + rewrite filter_cons_False by (simpl; tauto). by intros ?%elem_of_nil.
    + rewrite filter_cons_False by (simpl; tauto).
      rewrite filter_cons_True by done.
      intros Ho%list_elem_of_singleton. eauto.
  - intros event s0.
    destruct (beforeDelete_cases event s0) as [-> | [-> | (first & others & _ & ->)]];
      simpl; (split; [try done; apply sublist_filter|]);
      intros d Hd; repeat (apply elem_of_cons in Hd as [Hd|Hd]; [discriminate|]);
      by apply elem_of_nil in Hd.
Qed.

Lemma at_most_one_profile_invariant_witness :
  at_most_one emptyStore ∧
  ∀ n, at_most_one (dispatch (take n sampleCalls) emptyStore).
Proof.
  split; [intros uid _; simpl; lia|].
  apply (at_most_one_profile_invariant sampleCalls emptyStore).
  intros uid _. simpl. lia.
Defined.

(** ** Creating twice *)

Lemma created_id_identifier event :
  is_identifier (created_id event) → nullish (prop event "result") = false.
Proof.
  unfold created_id. destruct (prop event "result"); simpl; tauto.
Qed.

Lemma deleted_id_identifier event :
  is_identifier (deleted_id event) → nullish event = false.
Proof.
  unfold deleted_id. destruct event; simpl; tauto.
Qed.

(** C2 as stated fails: from a store that already holds two profiles of
    user 7, two creations for user 7 leave two profiles, not one. *)
Lemma idempotent_creation_counterexample :
  is_identifier (VNum 7) ∧
  created_id scenarioB = VNum 7 ∧
  ¬ idempotent_creation (VNum 7) halves halves scenarioB scenarioB duplicated.
Proof.
  split; [exact I|]. split; [reflexivity|].
  intros [Hlen _]. vm_compute in Hlen. discriminate.
Qed.

(** C2, amended.  Two creation events for the same user identifier, handled
    in sequence, both return, and the second handler makes no [create] or
    [delete] call and leaves the store as the first one left it, whatever the
    starting store.  When the starting store holds at most one profile of
    that identifier, exactly one profile of it exists afterwards. *)
Theorem creation_idempotent
    (uid : value) (rnd1 rnd2 : Draws) (event1 event2 : value) (s : Store) :
  is_identifier uid →
  created_id event1 = uid →
  created_id event2 = uid →
  outcome (afterCreate rnd1 event1 s) = Returned tt ∧
  outcome (afterCreate rnd2 event2 (after (afterCreate rnd1 event1 s))) = Returned tt ∧
  after (afterCreate rnd2 event2 (after (afterCreate rnd1 event1 s))) =
    after (afterCreate rnd1 event1 s) ∧
  mutations (ops (afterCreate rnd2 event2 (after (afterCreate rnd1 event1 s)))) = [] ∧
  ((length (profiles_of uid s) ≤ 1)%nat →
   idempotent_creation uid rnd1 rnd2 event1 event2 s).
Proof.
  intros Hid H1 H2. unfold idempotent_creation.
  assert (Hr1 : nullish (prop event1 "result") = false)
    by (apply created_id_identifier; by rewrite H1).
  assert (Hr2 : nullish (prop event2 "result") = false)
    by (apply created_id_identifier; by rewrite H2).
  rewrite (afterCreate_runs rnd1 event1) by done.
  rewrite H1.
  assert (Hone : ∃ s1,
    createUserProfile uid (chosen_fullName rnd1 event1) (chosen_bio event1) s =
      mkRun (Returned tt) s1 (ops (createUserProfile uid (chosen_fullName rnd1 event1)
                                     (chosen_bio event1) s)) ∧
    profiles_of uid s1 ≠ [] ∧
    ((length (profiles_of uid s) ≤ 1)%nat → length (profiles_of uid s1) = 1%nat)).
  { destruct (profiles_of uid s) as [|p l] eqn:Hp.
    - rewrite createUserProfile_fresh by done. eexists. split; [done|].
      rewrite profiles_of_insert, Hp. simpl.
      rewrite decide_True by (by apply same_id_eq). done.
    - rewrite createUserProfile_found by (by rewrite Hp). eexists. split; [done|].
      rewrite Hp. split; [done|]. simpl. destruct l; simpl; [done|lia]. }
  destruct Hone as (s1 & -> & Hsome & Hlen). simpl.
  rewrite (afterCreate_runs rnd2 event2) by done. rewrite H2.
  rewrite createUserProfile_found by done.
  simpl. repeat split; try done. by apply Hlen.
Qed.

Lemma creation_idempotent_witness :
  is_identifier (VNum 7) ∧
  created_id scenarioB = VNum 7 ∧
  (length (profiles_of (VNum 7) emptyStore) ≤ 1)%nat ∧
  idempotent_creation (VNum 7) halves halves scenarioB scenarioB emptyStore.
Proof.
  split; [exact I|]. split; [reflexivity|]. split; [simpl; lia|].
  apply (creation_idempotent (VNum 7) halves halves scenarioB scenarioB emptyStore);
    [exact I | reflexivity | reflexivity | simpl; lia].
Defined.

(** ** Postcondition of afterCreate *)

(** C3.  When [afterCreate] returns: if no profile of the store had the
    event's [result.id] as its back-reference, exactly one profile of the
    store has it now; if the lookup found some, the store is unchanged.  In
    every case the handler made at most one mutating call, a [create], and
    the collection is either the one it found or that one with a single
    profile appended. *)
Theorem afterCreate_postcondition (rnd : Draws) (event : value) (s : Store) :
  outcome (afterCreate rnd event s) = Returned tt →
  ((∀ q, q ∈ docs s → user q ≠ created_id event) →
   exactly_one_of (created_id event) (docs (after (afterCreate rnd event s)))) ∧
  (is_identifier (created_id event) →
   profiles_of (created_id event) s = [] →
   length (profiles_of (created_id event) (after (afterCreate rnd event s))) = 1%nat) ∧
  (profiles_of (created_id event) s ≠ [] → after (afterCreate rnd event s) = s) ∧
  ((length (mutations (ops (afterCreate rnd event s))) ≤ 1)%nat ∧
   ∀ o, o ∈ mutations (ops (afterCreate rnd event s)) → ∃ d, o = OpCreate d) ∧
  (docs (after (afterCreate rnd event s)) = docs s ∨
   ∃ p, docs (after (afterCreate rnd event s)) = docs s ++ [p]).
Proof.
  intros Hret.
  destruct (afterCreate_cases rnd event s) as [E | [[Hsome E] | [Hnone E]]];
    rewrite E in *; simpl in *; [discriminate| |].
  - split; [|split; [|split; [|split]]].
    + by intros ?%profiles_of_none.
    + by intros _ Hn.
    + done.
    + split; [simpl; lia|]. by intros o ?%elem_of_nil.
    + by left.
  - split; [|split; [|split; [|split]]].
    + intros Hfresh. eexists (docs s), _, []. split; [done|]. split; [done|].
      intros q Hq. rewrite app_nil_r in Hq. by apply Hfresh.
    + intros Hid _. rewrite profiles_of_insert, Hnone. simpl.
      rewrite decide_True; [done|]. by apply same_id_eq.
    + by intros [].
    + split; [simpl; lia|]. intros o Ho%list_elem_of_singleton. eauto.
    + right. eauto.
Qed.

Lemma afterCreate_postcondition_witness :
  outcome (afterCreate halves scenarioA emptyStore) = Returned tt ∧
  (∀ q, q ∈ docs emptyStore → user q ≠ created_id scenarioA) ∧
  exactly_one_of (created_id scenarioA)
    (docs (after (afterCreate halves scenarioA emptyStore))).
Proof.
  split; [reflexivity|].
  assert (Hfresh : ∀ q, q ∈ docs emptyStore → user q ≠ created_id scenarioA)
    by (intros q Hq; simpl in Hq; by apply elem_of_nil in Hq).
  split; [exact Hfresh|].
  apply (afterCreate_postcondition halves scenarioA emptyStore); [reflexivity | exact Hfresh].
Defined.

(** ** The profile afterCreate inserts *)

Lemma app_singleton_neq {A} (l : list A) (x : A) : l ≠ l ++ [x].
Proof.
  intros E. apply (f_equal length) in E. rewrite length_app in E. simpl in E. lia.
Qed.

Lemma truthy_nonempty (t : string) : t ≠ "" → truthy (VStr t) = true.
Proof.
  intros Hne. simpl. apply negb_true_iff. by apply String.eqb_neq.
Qed.

(** C4.  The adjective list and the noun list have eight elements each.
    With valid random draws and an event that supplies neither [fullName] nor
    [bio], any profile [afterCreate] appends to the collection has a display
    name made of an adjective of the list, a noun of the list and the
    four-digit numeral of a number from 1000 to 9999, and has the biography
    "No bio yet".  Such a profile is appended whenever the event has a result
    and the lookup finds no profile of its user. *)
Theorem default_profile (rnd : Draws) (event : value) (s : Store) :
  valid_draws rnd →
  prop (prop (prop event "params") "data") "fullName" = VUndefined →
  prop (prop (prop event "params") "data") "bio" = VUndefined →
  (length adjectives = 8%nat ∧ length nouns = 8%nat) ∧
  (∀ p, docs (after (afterCreate rnd event s)) = docs s ++ [p] →
     (∃ t, fullName p = VStr t ∧ generated_name t) ∧ bio p = VStr "No bio yet") ∧
  (nullish (prop event "result") = false →
   profiles_of (created_id event) s = [] →
   ∃ p, docs (after (afterCreate rnd event s)) = docs s ++ [p]).
Proof.
  intros Hrnd Hname Hbio. split; [done|]. split.
  - intros p.
    destruct (afterCreate_cases rnd event s) as [-> | [[_ ->] | [_ ->]]]; simpl.
    + by intros ?%app_singleton_neq.
    + by intros ?%app_singleton_neq.
    + intros [_ <-]%app_inj_tail. simpl.
      unfold chosen_fullName, chosen_bio. rewrite Hname, Hbio. simpl.
      split; [|done]. eexists. split; [done|]. by apply generateUsername_shape.
  - intros Hr Hnone.
    rewrite afterCreate_runs, createUserProfile_fresh by done. simpl. eauto.
Qed.

Lemma default_profile_witness :
  valid_draws halves ∧
  prop (prop (prop scenarioB "params") "data") "fullName" = VUndefined ∧
  prop (prop (prop scenarioB "params") "data") "bio" = VUndefined ∧
  docs (after (afterCreate halves scenarioB emptyStore)) =
    docs emptyStore ++
      [mkProfile 0%N (VNum 7) (VStr "SilentFalcon5500") (VStr "No bio yet")] ∧
  generated_name "SilentFalcon5500".
Proof.
  assert (Hv : valid_draws halves) by (repeat split; by vm_compute).
  split; [exact Hv|]. split; [reflexivity|]. split; [reflexivity|].
  split; [vm_compute; reflexivity|].
  destruct (proj1 (proj2 (default_profile halves scenarioB emptyStore Hv eq_refl eq_refl))
              (mkProfile 0%N (VNum 7) (VStr "SilentFalcon5500") (VStr "No bio yet")))
    as [(t & Ht & Hshape) _]; [vm_compute; reflexivity|].
  simpl in Ht. injection Ht as <-. exact Hshape.
Defined.

(** C5.  When the event supplies a non-empty [fullName] and a non-empty
    [bio], has a result, and the lookup finds no profile of its user,
    [afterCreate] returns after one lookup and one [create], and the
    collection has gained exactly the profile that references the created
    user's identifier and carries the two supplied strings unchanged. *)
Theorem supplied_profile (rnd : Draws) (event : value) (s : Store) (name about : string) :
  prop (prop (prop event "params") "data") "fullName" = VStr name →
  name ≠ "" →
  prop (prop (prop event "params") "data") "bio" = VStr about →
  about ≠ "" →
  nullish (prop event "result") = false →
  profiles_of (created_id event) s = [] →
  afterCreate rnd event s =
  mkRun (Returned tt)
    {| docs := docs s ++
         [mkProfile (nextDocumentId s) (created_id event) (VStr name) (VStr about)];
       nextDocumentId := N.succ (nextDocumentId s) |}
    [OpFindMany (created_id event);
     OpCreate (mkData (created_id event) (VStr name) (VStr about))].
Proof.
  intros Hname Hne Hbio Hne' Hr Hnone.
  rewrite afterCreate_runs, createUserProfile_fresh by done.
  unfold chosen_fullName, chosen_bio, logical_or. rewrite Hname, Hbio.
  by rewrite !truthy_nonempty.
Qed.

Lemma supplied_profile_witness :
  docs (after (afterCreate halves scenarioA emptyStore)) =
  [mkProfile 0%N (VNum 42) (VStr "Ada Lovelace") (VStr "Mathematician")].
Proof.
  rewrite (supplied_profile halves scenarioA emptyStore "Ada Lovelace" "Mathematician");
    [reflexivity | reflexivity | discriminate | reflexivity | discriminate
    | reflexivity | reflexivity].
Defined.

(** ** beforeDelete *)

Lemma filter_all {A} (P : A → Prop) `{!∀ x, Decision (P x)} (l : list A) :
  (∀ x, x ∈ l → P x) → filter P l = l.
Proof.
  induction l as [|x l IH]; intros Hall; [done|].
  rewrite filter_cons_True by (apply Hall; left).
  f_equal. apply IH. intros y Hy. apply Hall. by right.
Qed.

(** C6.  For a deletion event that carries a user identifier of which the
    store holds at most one profile, [beforeDelete] returns and leaves no
    profile whose back-reference is that identifier. *)
Theorem beforeDelete_postcondition (event : value) (s : Store) :
  is_identifier (deleted_id event) →
  (length (profiles_of (deleted_id event) s) ≤ 1)%nat →
  outcome (beforeDelete event s) = Returned tt ∧
  profiles_of (deleted_id event) (after (beforeDelete event s)) = [] ∧
  ∀ p, p ∈ docs (after (beforeDelete event s)) → user p ≠ deleted_id event.
Proof.
  intros Hid Hle.
  assert (Hgone : outcome (beforeDelete event s) = Returned tt ∧
                  profiles_of (deleted_id event) (after (beforeDelete event s)) = []).
  { rewrite beforeDelete_runs by (by apply deleted_id_identifier).
    destruct (profiles_of (deleted_id event) s) as [|first others] eqn:Hp.
    - rewrite deleteUserProfile_none by done. by simpl.
    - rewrite (deleteUserProfile_first _ _ _ _ Hp). simpl. split; [done|].
      rewrite profiles_of_remove, Hp.
      destruct others; [|simpl in Hle; lia].
      by rewrite filter_cons_False by (intros H; by apply H). }
  destruct Hgone as [Hret Hnone]. repeat split; try done.
  intros p Hp Hu.
  apply (filter_nil_not_elem_of _ _ p Hnone); [|done]. by apply references_eq.
Qed.

Lemma beforeDelete_postcondition_witness :
  is_identifier (deleted_id (deletion_of (VNum 42))) ∧
  (length (profiles_of (deleted_id (deletion_of (VNum 42))) oneProfile) ≤ 1)%nat ∧
  profiles_of (deleted_id (deletion_of (VNum 42)))
    (after (beforeDelete (deletion_of (VNum 42)) oneProfile)) = [].
Proof.
  split; [exact I|]. split; [vm_compute; lia|].
  apply (beforeDelete_postcondition (deletion_of (VNum 42)) oneProfile);
    [exact I | vm_compute; lia].
Defined.

(** C7.  Modelled store: a lookup filtered on [undefined] matches nothing.
    For a deletion event whose [params?.where?.id] is [undefined], the lookup
    is called with [undefined] and returns the empty list, and [beforeDelete]
    returns without an error, having made that lookup and no other call, with
    the store unchanged. *)
Theorem beforeDelete_missing_identifier (event : value) (s : Store) :
  nullish event = false →
  deleted_id event = VUndefined →
  checkIfUserProfileExists VUndefined s = mkRun (Returned []) s [OpFindMany VUndefined] ∧
  beforeDelete event s = mkRun (Returned tt) s [OpFindMany VUndefined].
Proof.
  intros He Hid. split.
  - unfold checkIfUserProfileExists, findMany. by rewrite profiles_of_undefined.
  - rewrite beforeDelete_runs, Hid by done.
    apply deleteUserProfile_none, profiles_of_undefined.
Qed.

Lemma beforeDelete_missing_identifier_witness :
  nullish (VObj {[ "params" := VObj ∅ ]}) = false ∧
  deleted_id (VObj {[ "params" := VObj ∅ ]}) = VUndefined ∧
  beforeDelete (VObj {[ "params" := VObj ∅ ]}) twoProfiles =
    mkRun (Returned tt) twoProfiles [OpFindMany VUndefined].
Proof.
  split; [reflexivity|]. split; [reflexivity|].
  apply (beforeDelete_missing_identifier (VObj {[ "params" := VObj ∅ ]}) twoProfiles);
    reflexivity.
Defined.

(** C8.  For a deletion event on a store in which no profile references the
    target identifier, [beforeDelete] returns without an error after the
    lookup alone, and the store is the one it started from. *)
Theorem beforeDelete_nothing_to_delete (event : value) (s : Store) :
  nullish event = false →
  profiles_of (deleted_id event) s = [] →
  beforeDelete event s = mkRun (Returned tt) s [OpFindMany (deleted_id event)].
Proof.
  intros He Hnone. rewrite beforeDelete_runs by done.
  by apply deleteUserProfile_none.
Qed.

Lemma beforeDelete_nothing_to_delete_witness :
  nullish (deletion_of (VNum 99)) = false ∧
  profiles_of (deleted_id (deletion_of (VNum 99))) twoProfiles = [] ∧
  after (beforeDelete (deletion_of (VNum 99)) twoProfiles) = twoProfiles.
Proof.
  split; [reflexivity|]. split; [reflexivity|].
  rewrite (beforeDelete_nothing_to_delete (deletion_of (VNum 99)) twoProfiles);
    reflexivity.
Defined.

(** ** Store-assigned identifiers *)

Lemma well_formed_empty : well_formed emptyStore.
Proof. split; simpl; [apply NoDup_nil_2 | apply Forall_nil_2]. Qed.

Lemma well_formed_insert d s : well_formed s → well_formed (insert_profile d s).
Proof.
  intros [Hnd Hlt]. split; simpl.
  - rewrite fmap_app. apply NoDup_app. split; [done|]. split; [|apply NoDup_singleton].
    intros id (p & -> & Hp)%list_elem_of_fmap Hin%list_elem_of_singleton.
    rewrite Forall_forall in Hlt. specialize (Hlt p Hp). simpl in Hin. lia.
  - apply Forall_app. split.
    + eapply Forall_impl; [done|]. intros p Hp. simpl in *. lia.
    + apply Forall_singleton. simpl. lia.
Qed.

Lemma well_formed_remove id s : well_formed s → well_formed (remove_document id s).
Proof.
  intros [Hnd Hlt]. split; simpl.
  - eapply sublist_NoDup; [done|]. apply fmap_sublist, sublist_filter.
  - rewrite Forall_forall in *. intros p [_ Hp]%list_elem_of_filter. by apply Hlt.
Qed.

Lemma well_formed_handle c s : well_formed s → well_formed (after (handle c s)).
Proof.
  intros Hwf. destruct c as [rnd event|event]; simpl.
  - destruct (afterCreate_cases rnd event s) as [-> | [[_ ->] | [_ ->]]]; simpl; try done.
    by apply well_formed_insert.
  - destruct (beforeDelete_cases event s) as [-> | [-> | (first & others & _ & ->)]];
      simpl; try done.
    by apply well_formed_remove.
Qed.

(** Every store the handlers can build from the empty one is well formed. *)
Lemma well_formed_dispatch cs s : well_formed s → well_formed (dispatch cs s).
Proof.
  revert s. induction cs as [|c cs IH]; intros s Hwf; simpl; [done|].
  apply IH. by apply well_formed_handle.
Qed.

(** In a well-formed store, removing the document of a stored profile takes
    out that one entry and nothing else. *)
Lemma remove_document_split s p :
  well_formed s → p ∈ docs s →
  ∃ l1 l2, docs s = l1 ++ p :: l2 ∧
           docs (remove_document (documentId p) s) = l1 ++ l2 ∧
           (∀ q, q ∈ l1 ++ l2 → documentId q ≠ documentId p).
Proof.
  intros [Hnd _] (l1 & l2 & Hsplit)%list_elem_of_split.
  exists l1, l2. split; [done|]. rewrite Hsplit in Hnd.
  rewrite fmap_app, fmap_cons in Hnd.
  apply NoDup_app in Hnd as (_ & Hl1 & Hnd). apply NoDup_cons in Hnd as [Hl2 _].
  assert (Hother : ∀ q, q ∈ l1 ++ l2 → documentId q ≠ documentId p).
  { intros q [Hq|Hq]%elem_of_app Heq.
    - apply (Hl1 (documentId q)); [by apply list_elem_of_fmap_2|]. rewrite Heq. by left.
    - apply Hl2. rewrite <- Heq. by apply list_elem_of_fmap_2. }
  split; [|done]. simpl. rewrite Hsplit, filter_app.
  rewrite filter_cons_False by (intros H; by apply H).
  rewrite <- filter_app. by apply filter_all.
Qed.

(** C9.  In a store whose document identifiers are distinct, when the lookup
    for the target identifier lists a first profile followed by at least one
    more, [beforeDelete] returns after one lookup and one [delete], the
    [delete] names the first profile's document identifier, the collection
    is the old one with that single entry taken out, and the later matches
    are all still listed, in order. *)
Theorem beforeDelete_first_only
    (event : value) (s : Store) (first second : Profile) (others : list Profile) :
  well_formed s →
  profiles_of (deleted_id event) s = first :: second :: others →
  beforeDelete event s =
    mkRun (Returned tt) (remove_document (documentId first) s)
      [OpFindMany (deleted_id event); OpDelete (documentId first)] ∧
  (∃ l1 l2, docs s = l1 ++ first :: l2 ∧
            docs (after (beforeDelete event s)) = l1 ++ l2) ∧
  profiles_of (deleted_id event) (after (beforeDelete event s)) = second :: others.
Proof.
  intros Hwf Hp.
  assert (Hfirst : first ∈ profiles_of (deleted_id event) s) by (rewrite Hp; left).
  apply list_elem_of_filter in Hfirst as [Href Hin].
  assert (He : nullish event = false).
  { apply deleted_id_identifier. by apply same_id_identifier in Href as [_ ?]. }
  assert (Hrun : beforeDelete event s =
    mkRun (Returned tt) (remove_document (documentId first) s)
      [OpFindMany (deleted_id event); OpDelete (documentId first)]).
  { rewrite beforeDelete_runs by done. by eapply deleteUserProfile_first. }
  rewrite Hrun. simpl. split; [done|].
  destruct (remove_document_split s first Hwf Hin) as (l1 & l2 & Hs & Hafter & Hids).
  split; [by exists l1, l2|].
  unfold profiles_of in *. rewrite Hafter. rewrite Hs in Hp.
  rewrite filter_app, filter_cons_True in Hp by done. rewrite filter_app.
  destruct (filter (references (deleted_id event)) l1) as [|q l] eqn:Hl1; simpl in *.
  - by injection Hp.
  - injection Hp as -> _. exfalso.
    assert (Hq : first ∈ filter (references (deleted_id event)) l1) by (rewrite Hl1; left).
    apply list_elem_of_filter in Hq as [_ Hq].
    apply (Hids first); [|done]. apply elem_of_app. by left.
Qed.

Lemma beforeDelete_first_only_witness :
  well_formed twoProfiles ∧
  profiles_of (deleted_id (deletion_of (VNum 42))) twoProfiles =
    [mkProfile 0%N (VNum 42) (VStr "Ada Lovelace") (VStr "Mathematician");
     mkProfile 2%N (VNum 42) (VStr "EagerPanda2048") (VStr "No bio yet")] ∧
  profiles_of (deleted_id (deletion_of (VNum 42)))
    (after (beforeDelete (deletion_of (VNum 42)) twoProfiles)) =
    [mkProfile 2%N (VNum 42) (VStr "EagerPanda2048") (VStr "No bio yet")].
Proof.
  assert (Hwf : well_formed twoProfiles).
  { split; apply (bool_decide_unpack _); vm_compute; exact I. }
  split; [exact Hwf|]. split; [reflexivity|].
  apply (beforeDelete_first_only (deletion_of (VNum 42)) twoProfiles
           (mkProfile 0%N (VNum 42) (VStr "Ada Lovelace") (VStr "Mathematician"))
           (mkProfile 2%N (VNum 42) (VStr "EagerPanda2048") (VStr "No bio yet"))
           [] Hwf).
  reflexivity.
Defined.

(** ** Malformed creation events *)

(** C10.  A creation event whose [result] is absent ([undefined] or [null])
    makes [afterCreate] throw a [TypeError] before any document-service call,
    so the store is untouched.  Absent [params] or [data] alone do no such
    thing: whenever [result] is there the handler returns, and with [params]
    or [data] absent it falls back on the generated name and the placeholder
    biography. *)
Theorem afterCreate_unguarded_result (rnd : Draws) (event : value) (s : Store) :
  nullish (prop event "result") = true →
  afterCreate rnd event s = mkRun (Thrown TypeError) s [] ∧
  ∀ other : value,
    nullish (prop other "result") = false →
    outcome (afterCreate rnd other s) = Returned tt ∧
    (nullish (prop other "params") = true ∨
     nullish (prop (prop other "params") "data") = true →
     chosen_fullName rnd other = VStr (generateUsername rnd) ∧
     chosen_bio other = VStr "No bio yet").
Proof.
  intros Hr. split; [by apply afterCreate_throws|].
  intros other Hother. split.
  - rewrite afterCreate_runs by done.
    destruct (profiles_of (created_id other) s) eqn:Hp.
    + by rewrite createUserProfile_fresh.
    + by rewrite createUserProfile_found by (by rewrite Hp).
  - unfold chosen_fullName, chosen_bio.
    intros [Hp|Hd].
    + by destruct (prop other "params").
    + by destruct (prop (prop other "params") "data").
Qed.

Lemma afterCreate_unguarded_result_witness :
  nullish (prop (VObj {[ "params" := VObj ∅ ]}) "result") = true ∧
  afterCreate halves (VObj {[ "params" := VObj ∅ ]}) oneProfile =
    mkRun (Thrown TypeError) oneProfile [] ∧
  outcome (afterCreate halves (VObj {[ "result" := VObj {[ "id" := VNum 7 ]} ]}) oneProfile)
    = Returned tt.
Proof.
  assert (Hr : nullish (prop (VObj {[ "params" := VObj ∅ ]}) "result") = true)
    by reflexivity.
  split; [exact Hr|].
  destruct (afterCreate_unguarded_result halves (VObj {[ "params" := VObj ∅ ]})
              oneProfile Hr) as [Hthrow Hother].
  split; [exact Hthrow|].
  apply (Hother (VObj {[ "result" := VObj {[ "id" := VNum 7 ]} ]})). reflexivity.
Defined.

(** * Further properties *)

(** ** The names generateUsername can return *)

Lemma adjective_prefix (a a' x y : string) :
  a ∈ adjectives → a' ∈ adjectives → a +:+ x = a' +:+ y → a = a' ∧ x = y.
Proof.
  unfold adjectives. rewrite !elem_of_cons, !elem_of_nil.
  intros Ha Ha' Heq. destruct_or!; subst; simplify_eq/=; done.
Qed.

Lemma noun_prefix (n n' x y : string) :
  n ∈ nouns → n' ∈ nouns → n +:+ x = n' +:+ y → n = n' ∧ x = y.
Proof.
  unfold nouns. rewrite !elem_of_cons, !elem_of_nil.
  intros Hn Hn' Heq. destruct_or!; subst; simplify_eq/=; done.
Qed.

(** X2.  A generated name determines its parts: two names built from an
    adjective of the list, a noun of the list and a number are equal only
    when the adjectives, the nouns and the numbers are. *)
Theorem generated_name_unambiguous (a a' n n' : string) (k k' : Z) :
  a ∈ adjectives → a' ∈ adjectives → n ∈ nouns → n' ∈ nouns →
  a +:+ n +:+ pretty k = a' +:+ n' +:+ pretty k' →
  a = a' ∧ n = n' ∧ k = k'.
Proof.
  intros Ha Ha' Hn Hn' Heq.
  apply adjective_prefix in Heq as [-> Heq]; [|done..].
  apply noun_prefix in Heq as [-> Heq]; [|done..].
  by apply (inj pretty) in Heq.
Qed.

Lemma generated_name_unambiguous_witness :
  "Bold" ∈ adjectives ∧ "Wolf" ∈ nouns ∧
  ("Bold" = "Bold" ∧ "Wolf" = "Wolf" ∧ 1234 = 1234).
Proof.
  assert (Ha : "Bold" ∈ adjectives) by (unfold adjectives; rewrite !elem_of_cons; tauto).
  assert (Hn : "Wolf" ∈ nouns) by (unfold nouns; rewrite !elem_of_cons; tauto).
  split; [exact Ha|]. split; [exact Hn|].
  apply (generated_name_unambiguous "Bold" "Bold" "Wolf" "Wolf" 1234 1234 Ha Ha Hn Hn).
  reflexivity.
Defined.

Lemma length_append (x y : string) :
  String.length (x +:+ y) = (String.length x + String.length y)%nat.
Proof. induction x as [|c x IH]; simpl; [done|]. by rewrite IH. Qed.

Lemma adjective_length (a : string) :
  a ∈ adjectives → (4 ≤ String.length a ≤ 6)%nat.
Proof.
  unfold adjectives. rewrite !elem_of_cons, !elem_of_nil.
  intros Ha. destruct_or!; subst; simpl; lia.
Qed.

Lemma noun_length (n : string) : n ∈ nouns → (4 ≤ String.length n ≤ 6)%nat.
Proof.
  unfold nouns. rewrite !elem_of_cons, !elem_of_nil.
  intros Hn. destruct_or!; subst; simpl; lia.
Qed.

(** X3.  With valid draws the generated name has between 12 and 16
    characters. *)
Theorem generateUsername_length (rnd : Draws) :
  valid_draws rnd → (12 ≤ String.length (generateUsername rnd) ≤ 16)%nat.
Proof.
  intros (a & n & k & Ha & Hn & _ & Hk & ->)%generateUsername_shape.
  rewrite !length_append.
  apply adjective_length in Ha. apply noun_length in Hn.
  unfold four_digits in Hk. apply andb_true_iff in Hk as [Hk%Nat.eqb_eq _]. lia.
Qed.

Lemma generateUsername_length_witness :
  valid_draws halves ∧ (12 ≤ String.length (generateUsername halves) ≤ 16)%nat.
Proof.
  assert (Hv : valid_draws halves) by (repeat split; by vm_compute).
  split; [exact Hv|]. exact (generateUsername_length halves Hv).
Defined.

(** ** The fields of a created profile *)

Lemma index_nonempty (arr : list string) (i : Z) :
  (∀ w, w ∈ arr → w ≠ "") → interpolate (index arr i) ≠ "".
Proof.
  intros Harr. unfold index. case_bool_decide; [done|].
  destruct (arr !! Z.to_nat i) as [w|] eqn:Hw; simpl; [|done].
  apply Harr. by eapply list_elem_of_lookup_2.
Qed.

Lemma adjectives_nonempty (w : string) : w ∈ adjectives → w ≠ "".
Proof. intros Hw%adjective_length ->. simpl in Hw. lia. Qed.

(** Whatever the draws are, the generated name is not the empty string. *)
Lemma generateUsername_nonempty (rnd : Draws) : generateUsername rnd ≠ "".
Proof.
  unfold generateUsername.
  pose proof (index_nonempty adjectives
                (random_index (draw_adjective rnd) adjectives) adjectives_nonempty) as Ha.
  destruct (interpolate _) as [|c t] in Ha |- *; done.
Qed.

Lemma logical_or_truthy (x d : value) : truthy d = true → truthy (logical_or x d) = true.
Proof. intros Hd. unfold logical_or. by destruct (truthy x) eqn:Hx. Qed.

(** X4.  A profile [afterCreate] appends never has a falsy [fullName] or
    [bio] (no [undefined], [null], empty string, 0 or [false]), whatever the
    event supplies and whatever [Math.random()] returns. *)
Theorem created_fields_truthy (rnd : Draws) (event : value) (s : Store) (p : Profile) :
  docs (after (afterCreate rnd event s)) = docs s ++ [p] →
  truthy (fullName p) = true ∧ truthy (bio p) = true.
Proof.
  destruct (afterCreate_cases rnd event s) as [-> | [[_ ->] | [_ ->]]]; simpl.
  - by intros ?%app_singleton_neq.
  - by intros ?%app_singleton_neq.
  - intros [_ <-]%app_inj_tail. simpl. unfold chosen_fullName, chosen_bio.
    split; apply logical_or_truthy; [|done].
    apply truthy_nonempty, generateUsername_nonempty.
Qed.

Lemma created_fields_truthy_witness :
  docs (after (afterCreate halves scenarioB emptyStore)) =
    docs emptyStore ++
      [mkProfile 0%N (VNum 7) (VStr "SilentFalcon5500") (VStr "No bio yet")] ∧
  truthy (VStr "SilentFalcon5500") = true ∧ truthy (VStr "No bio yet") = true.
Proof.
  assert (Hrun : docs (after (afterCreate halves scenarioB emptyStore)) =
    docs emptyStore ++
      [mkProfile 0%N (VNum 7) (VStr "SilentFalcon5500") (VStr "No bio yet")])
    by (vm_compute; reflexivity).
  split; [exact Hrun|].
  exact (created_fields_truthy halves scenarioB emptyStore _ Hrun).
Defined.

(** X5.  Each field is chosen on its own: a supplied value is stored as it
    is when it is truthy, and replaced by the default (the generated name,
    "No bio yet") when it is falsy, the empty string included. *)
Theorem created_fields_choice (rnd : Draws) (event : value) (s : Store) (p : Profile) :
  docs (after (afterCreate rnd event s)) = docs s ++ [p] →
  (truthy (prop (prop (prop event "params") "data") "fullName") = true →
   fullName p = prop (prop (prop event "params") "data") "fullName") ∧
  (truthy (prop (prop (prop event "params") "data") "fullName") = false →
   fullName p = VStr (generateUsername rnd)) ∧
  (truthy (prop (prop (prop event "params") "data") "bio") = true →
   bio p = prop (prop (prop event "params") "data") "bio") ∧
  (truthy (prop (prop (prop event "params") "data") "bio") = false →
   bio p = VStr "No bio yet").
Proof.
  destruct (afterCreate_cases rnd event s) as [-> | [[_ ->] | [_ ->]]]; simpl.
  - by intros ?%app_singleton_neq.
  - by intros ?%app_singleton_neq.
  - intros [_ <-]%app_inj_tail. simpl. unfold chosen_fullName, chosen_bio, logical_or.
    repeat split; by intros ->.
Qed.

Lemma created_fields_choice_witness :
  docs (after (afterCreate halves emptyNameEvent emptyStore)) =
    docs emptyStore ++
      [mkProfile 0%N (VNum 7) (VStr "SilentFalcon5500") (VStr "Sailor")] ∧
  truthy (prop (prop (prop emptyNameEvent "params") "data") "fullName") = false ∧
  truthy (prop (prop (prop emptyNameEvent "params") "data") "bio") = true ∧
  fullName (mkProfile 0%N (VNum 7) (VStr "SilentFalcon5500") (VStr "Sailor")) =
    VStr (generateUsername halves) ∧
  bio (mkProfile 0%N (VNum 7) (VStr "SilentFalcon5500") (VStr "Sailor")) =
    prop (prop (prop emptyNameEvent "params") "data") "bio".
Proof.
  assert (Hrun : docs (after (afterCreate halves emptyNameEvent emptyStore)) =
    docs emptyStore ++
      [mkProfile 0%N (VNum 7) (VStr "SilentFalcon5500") (VStr "Sailor")])
    by (vm_compute; reflexivity).
  destruct (created_fields_choice halves emptyNameEvent emptyStore _ Hrun)
    as (_ & Hname & Hbio & _).
  split; [exact Hrun|]. split; [reflexivity|]. split; [reflexivity|].
  split; [apply Hname | apply Hbio]; reflexivity.
Defined.

(** ** Every name of the shape can be generated *)

Module F64Reach.
Import F64 F64Facts.

Lemma last_place_le (x : dyadic) (b : Z) :
  0 < mant x → (to_Q x < 2 ^ b)%Q → -1021 ≤ b → last_place x ≤ b - 53.
Proof.
  intros Hm Hlt Hb. destruct (binade x Hm) as [Hlo _].
  assert (He : Z.log2 (mant x) + expo x < b)
    by (apply pow2_lt_inv; by eapply Qle_lt_trans).
  rewrite (last_place_pos x Hm). lia.
Qed.

(** Rounding never crosses a multiple of a power of two that is at least the
    unit in the last place. *)
Lemma round_grid (x : dyadic) (a g : Z) :
  0 < mant x → last_place x ≤ g →
  ((inject_Z a * 2 ^ g <= to_Q x)%Q → (inject_Z a * 2 ^ g <= to_Q (round x))%Q) ∧
  ((to_Q x <= inject_Z a * 2 ^ g)%Q → (to_Q (round x) <= inject_Z a * 2 ^ g)%Q).
Proof.
  intros Hm Hg. set (u := last_place x) in *.
  assert (Hpow : (inject_Z (a * 2 ^ (g - u)) * 2 ^ u == inject_Z a * 2 ^ g)%Q).
  { rewrite inject_Z_mult, <- pow2_Z by lia. rewrite <- Qmult_assoc, <- pow2_add.
    by replace (g - u + u) with g by lia. }
  pose proof (pow2_pos u) as Hu.
  split; intros H; rewrite <- Hpow in *; apply round_near; try lia; fold u.
  - rewrite midpoint_below. lra.
  - rewrite midpoint_above. lra.
Qed.

Lemma draw_for_unit_interval (k : Z) : 1000 ≤ k ≤ 9999 → unit_interval (draw_for k).
Proof.
  intros Hk. unfold unit_interval, is_double, to_Q, draw_for. cbn [mant expo].
  change (2 ^ 52) with 4503599627370496. change (2 ^ 53) with 9007199254740992.
  set (m := (2 * (k - 1000) + 1) * 4503599627370496 / 9000).
  assert (Hm : 0 ≤ m < 9007199254740992) by (unfold m; lia_div).
  assert (H53 : (0 < 2 ^ (-53))%Q) by reflexivity.
  split; [lia|]. split.
  - apply Qmult_le_0_compat; [|by apply Qlt_le_weak].
    change 0%Q with (inject_Z 0). rewrite <- Zle_Qle. lia.
  - apply Qlt_le_trans with (inject_Z 9007199254740992 * 2 ^ (-53))%Q; [|by vm_compute].
    apply Qmult_lt_compat_r; [done|]. rewrite <- Zlt_Qlt. lia.
Qed.

Lemma draw_for_number (k : Z) :
  1000 ≤ k ≤ 9999 →
  floor (add (of_Z 1000) (mul (draw_for k) (of_Z 9000))) = k.
Proof.
  intros Hk. set (j := k - 1000).
  set (m := (2 * j + 1) * 2 ^ 52 / 9000).
  assert (Hm : (4 * j + 1) * 2 ^ 51 ≤ m * 9000 ≤ (4 * j + 2) * 2 ^ 51).
  { unfold m, j. change (2 ^ 52) with 4503599627370496.
    change (2 ^ 51) with 2251799813685248. lia_div. }
  assert (H2 : (2 ^ (-2) == inject_Z (2 ^ 51) * 2 ^ (-53))%Q) by reflexivity.
  assert (H4 : (2 ^ (-2) == 1 # 4)%Q) by reflexivity.
  assert (H53 : (0 < 2 ^ (-53))%Q) by reflexivity.
  assert (Hj : (0 <= inject_Z j)%Q ∧ (inject_Z j <= 8999)%Q).
  { change 0%Q with (inject_Z 0). change 8999%Q with (inject_Z 8999).
    rewrite <- !Zle_Qle. unfold j. lia. }
  (* the product *)
  unfold mul. set (x := {| mant := _; expo := _ |}).
  assert (Hx : (inject_Z (4 * j + 1) * 2 ^ (-2) <= to_Q x)%Q ∧
               (to_Q x <= inject_Z (4 * j + 2) * 2 ^ (-2))%Q).
  { unfold x, to_Q, draw_for. cbn [mant expo of_Z]. fold j. fold m.
    change (-53 + 0) with (-53).
    rewrite !H2, !Qmult_assoc, <- !inject_Z_mult.
    rewrite !Qmult_le_r by done. rewrite <- !Zle_Qle. lia. }
  assert (Hx4 : (inject_Z (4 * j + 1) == 4 * inject_Z j + 1)%Q ∧
                (inject_Z (4 * j + 2) == 4 * inject_Z j + 2)%Q).
  { rewrite !inject_Z_plus, !inject_Z_mult. split; reflexivity. }
  destruct Hx4 as [Hx41 Hx42]. rewrite Hx41, Hx42, H4 in Hx.
  assert (Hmx : 0 < mant x) by (apply to_Q_sign; lra).
  assert (Hlx : last_place x ≤ -2).
  { apply (last_place_le x 51 Hmx); [|lia].
    apply Qle_lt_trans with 9000%Q; [lra|reflexivity]. }
  destruct (round_grid x (4 * j + 1) (-2) Hmx Hlx) as [Hlo _].
  destruct (round_grid x (4 * j + 2) (-2) Hmx Hlx) as [_ Hhi].
  rewrite Hx41, H4 in Hlo. rewrite Hx42, H4 in Hhi.
  specialize (Hlo (proj1 Hx)). specialize (Hhi (proj2 Hx)).
  (* the sum *)
  unfold add. set (y := {| mant := _; expo := _ |}).
  assert (Hy : (to_Q y == 1000 + to_Q (round x))%Q).
  { unfold y. rewrite to_Q_add, to_Q_of_Z. reflexivity. }
  assert (Hk4 : (inject_Z k == inject_Z j + 1000)%Q).
  { unfold j. unfold Z.sub. rewrite inject_Z_plus, inject_Z_opp.
    change (inject_Z 1000) with 1000%Q. lra. }
  assert (Hy4 : (inject_Z (4 * k + 1) == 4 * inject_Z k + 1)%Q ∧
                (inject_Z (4 * k + 2) == 4 * inject_Z k + 2)%Q).
  { rewrite !inject_Z_plus, !inject_Z_mult. split; reflexivity. }
  destruct Hy4 as [Hy41 Hy42].
  assert (Hmy : 0 < mant y) by (apply to_Q_sign; lra).
  assert (Hly : last_place y ≤ -2).
  { apply (last_place_le y 51 Hmy); [|lia].
    apply Qle_lt_trans with 10000%Q; [lra|reflexivity]. }
  destruct (round_grid y (4 * k + 1) (-2) Hmy Hly) as [Hlo' _].
  destruct (round_grid y (4 * k + 2) (-2) Hmy Hly) as [_ Hhi'].
  rewrite Hy41, H4 in Hlo'. rewrite Hy42, H4 in Hhi'.
  assert (Hlo'' : (inject_Z k <= to_Q (round y))%Q) by (apply Qle_trans with ((4 * inject_Z k + 1) * (1 # 4))%Q; [lra|apply Hlo'; lra]).
  assert (Hhi'' : (to_Q (round y) < inject_Z (k + 1))%Q).
  { rewrite inject_Z_plus. change (inject_Z 1) with 1%Q.
    apply Qle_lt_trans with ((4 * inject_Z k + 2) * (1 # 4))%Q; [apply Hhi'; lra|lra]. }
  rewrite floor_spec.
  apply Qfloor_resp_le in Hlo''. rewrite Qfloor_Z in Hlo''.
  pose proof (Qfloor_le (to_Q (round y))) as Hfl.
  assert (Hlt : Qfloor (to_Q (round y)) < k + 1)
    by (rewrite Zlt_Qlt; by eapply Qle_lt_trans).
  lia.
Qed.

(** The draw [i / 8] picks the word at index [i]. *)
Lemma word_draw (arr : list string) (w : string) :
  length arr = 8%nat → w ∈ arr →
  ∃ r, unit_interval r ∧ index arr (random_index r arr) = Some w.
Proof.
  intros Hlen [i Hi]%list_elem_of_lookup.
  assert (Hlt : (i < 8)%nat) by (rewrite <- Hlen; by eapply lookup_lt_Some).
  exists {| mant := Z.of_nat i; expo := -3 |}.
  unfold random_index. rewrite Hlen.
  do 8 (destruct i as [|i]; [by repeat split; vm_compute|]). lia.
Qed.

End F64Reach.

(** X1.  Every name of the shape can be generated: for each adjective of the
    list, noun of the list and number from 1000 to 9999 there are three
    results [Math.random()] may return for which [generateUsername] returns
    the adjective, the noun and the numeral of the number, concatenated. *)
Theorem generateUsername_onto (t : string) :
  generated_name t → ∃ rnd, valid_draws rnd ∧ generateUsername rnd = t.
Proof.
  intros (a & n & k & Ha & Hn & Hk & _ & ->).
  destruct (F64Reach.word_draw adjectives a eq_refl Ha) as (ra & Hra & Hia).
  destruct (F64Reach.word_draw nouns n eq_refl Hn) as (rn & Hrn & Hin).
  exists (mkDraws (draw_for k) ra rn). split.
  - split; [|split]; simpl; [by apply F64Reach.draw_for_unit_interval|done..].
  - unfold generateUsername. simpl. by rewrite Hia, Hin, F64Reach.draw_for_number.
Qed.

Lemma generateUsername_onto_witness :
  generated_name "EagerHawk9999" ∧
  ∃ rnd, valid_draws rnd ∧ generateUsername rnd = "EagerHawk9999".
Proof.
  assert (Hshape : generated_name "EagerHawk9999").
  { exists "Eager", "Hawk", 9999.
    split; [unfold adjectives; rewrite !elem_of_cons; tauto|].
    split; [unfold nouns; rewrite !elem_of_cons; tauto|].
    split; [lia|]. split; reflexivity. }
  split; [exact Hshape|]. exact (generateUsername_onto "EagerHawk9999" Hshape).
Defined.

(** ** Deleting and other users *)

Lemma references_user uid p : references uid p → user p = uid.
Proof.
  intros Href. apply same_id_eq; [|done]. by apply same_id_identifier in Href as [_ ?].
Qed.

Lemma profiles_of_remove_other q s p :
  well_formed s → p ∈ docs s → ¬ references q p →
  profiles_of q (remove_document (documentId p) s) = profiles_of q s.
Proof.
  intros Hwf Hin Hq.
  destruct (remove_document_split s p Hwf Hin) as (l1 & l2 & Hs & Hafter & _).
  unfold profiles_of. rewrite Hafter, Hs, !filter_app.
  by rewrite (filter_cons_False _ p).
Qed.

Lemma profiles_of_remove_first uid s first others :
  well_formed s →
  profiles_of uid s = first :: others →
  profiles_of uid (remove_document (documentId first) s) = others.
Proof.
  intros Hwf Hp.
  assert (Hfirst : first ∈ profiles_of uid s) by (rewrite Hp; left).
  apply list_elem_of_filter in Hfirst as [Href Hin].
  destruct (remove_document_split s first Hwf Hin) as (l1 & l2 & Hs & Hafter & Hids).
  unfold profiles_of in *. rewrite Hafter. rewrite Hs in Hp.
  rewrite filter_app, filter_cons_True in Hp by done. rewrite filter_app.
  destruct (filter (references uid) l1) as [|q l] eqn:Hl1; simpl in *.
  - by injection Hp.
  - injection Hp as -> _. exfalso.
    assert (Hq : first ∈ filter (references uid) l1) by (rewrite Hl1; left).
    apply list_elem_of_filter in Hq as [_ Hq].
    apply (Hids first); [|done]. apply elem_of_app. by left.
Qed.

Lemma beforeDelete_other event q s :
  well_formed s → q ≠ deleted_id event →
  profiles_of q (after (beforeDelete event s)) = profiles_of q s.
Proof.
  intros Hwf Hq.
  destruct (beforeDelete_cases event s) as [-> | [-> | (first & others & Hp & ->)]];
    simpl; [done..|].
  assert (Hfirst : first ∈ profiles_of (deleted_id event) s) by (rewrite Hp; left).
  apply list_elem_of_filter in Hfirst as [Href%references_user Hin].
  apply profiles_of_remove_other; [done..|].
  intros Href'%references_user. congruence.
Qed.

(** X6.  In a store whose document identifiers are distinct, [beforeDelete]
    removes at most one document, one whose back-reference is the event's
    identifier, and the profiles of every other identifier are listed as
    before. *)
Theorem beforeDelete_frame (event q : value) (s : Store) :
  well_formed s →
  q ≠ deleted_id event →
  profiles_of q (after (beforeDelete event s)) = profiles_of q s ∧
  (docs (after (beforeDelete event s)) = docs s ∨
   ∃ l1 first l2,
     docs s = l1 ++ first :: l2 ∧
     docs (after (beforeDelete event s)) = l1 ++ l2 ∧
     user first = deleted_id event).
Proof.
  intros Hwf Hq.
  destruct (beforeDelete_cases event s) as [-> | [-> | (first & others & Hp & ->)]];
    simpl; [by split; [|left].. |].
  assert (Hfirst : first ∈ profiles_of (deleted_id event) s) by (rewrite Hp; left).
  apply list_elem_of_filter in Hfirst as [Href%references_user Hin].
  split.
  - apply profiles_of_remove_other; [done..|].
    intros Href'%references_user. congruence.
  - right. destruct (remove_document_split s first Hwf Hin) as (l1 & l2 & Hs & Hafter & _).
    by exists l1, first, l2.
Qed.

Lemma beforeDelete_frame_witness :
  well_formed twoProfiles ∧
  VNum 7 ≠ deleted_id (deletion_of (VNum 42)) ∧
  profiles_of (VNum 7) (after (beforeDelete (deletion_of (VNum 42)) twoProfiles)) =
    profiles_of (VNum 7) twoProfiles.
Proof.
  assert (Hwf : well_formed twoProfiles).
  { split; apply (bool_decide_unpack _); vm_compute; exact I. }
  assert (Hne : VNum 7 ≠ deleted_id (deletion_of (VNum 42))) by discriminate.
  split; [exact Hwf|]. split; [exact Hne|].
  apply (beforeDelete_frame (deletion_of (VNum 42)) (VNum 7) twoProfiles Hwf Hne).
Defined.

Lemma deleted_id_nullish event : nullish event = true → deleted_id event = VUndefined.
Proof. by destruct event. Qed.

(** One [beforeDelete] takes the first entry off the lookup's list. *)
Lemma beforeDelete_step event s :
  well_formed s →
  profiles_of (deleted_id event) (after (beforeDelete event s)) =
  drop 1 (profiles_of (deleted_id event) s).
Proof.
  intros Hwf. destruct (nullish event) eqn:He.
  - rewrite beforeDelete_throws by done. simpl.
    by rewrite (deleted_id_nullish event He), profiles_of_undefined.
  - rewrite beforeDelete_runs by done.
    destruct (profiles_of (deleted_id event) s) as [|first others] eqn:Hp.
    + rewrite deleteUserProfile_none by done. simpl. by rewrite Hp.
    + rewrite (deleteUserProfile_first _ _ _ _ Hp). simpl.
      by rewrite (profiles_of_remove_first _ _ _ _ Hwf Hp), drop_0.
Qed.

(** X7.  In a store whose document identifiers are distinct, each
    [beforeDelete] for an identifier takes the first profile off the lookup's
    list: after [n] invocations the lookup lists what it listed at first
    without its first [n] entries, so as many invocations as there are
    profiles of the user are needed to remove them all. *)
Theorem repeated_deletion (event : value) (n : nat) (s : Store) :
  well_formed s →
  profiles_of (deleted_id event) (dispatch (replicate n (OnUserDeleting event)) s) =
  drop n (profiles_of (deleted_id event) s).
Proof.
  revert s. induction n as [|n IH]; intros s Hwf; [done|].
  simpl. rewrite IH by (by apply (well_formed_handle (OnUserDeleting event))).
  rewrite beforeDelete_step by done. rewrite drop_drop. f_equal.
Qed.

Lemma repeated_deletion_witness :
  well_formed twoProfiles ∧
  profiles_of (deleted_id (deletion_of (VNum 42)))
    (dispatch (replicate 2 (OnUserDeleting (deletion_of (VNum 42)))) twoProfiles) = [].
Proof.
  assert (Hwf : well_formed twoProfiles).
  { split; apply (bool_decide_unpack _); vm_compute; exact I. }
  split; [exact Hwf|].
  rewrite (repeated_deletion (deletion_of (VNum 42)) 2 twoProfiles Hwf). reflexivity.
Defined.

(** ** Creating and deleting together *)

(** X8.  Round trip: in a store whose document identifiers are distinct and
    which holds no profile of a user identifier, [afterCreate] for that
    identifier followed by [beforeDelete] for it both return and leave the
    collection exactly as it was. *)
Theorem create_then_delete (rnd : Draws) (created deleted : value) (s : Store) :
  well_formed s →
  is_identifier (created_id created) →
  deleted_id deleted = created_id created →
  profiles_of (created_id created) s = [] →
  outcome (afterCreate rnd created s) = Returned tt ∧
  outcome (beforeDelete deleted (after (afterCreate rnd created s))) = Returned tt ∧
  docs (after (beforeDelete deleted (after (afterCreate rnd created s)))) = docs s.
Proof.
  intros [_ Hlt] Hid Hsame Hnone.
  rewrite afterCreate_runs by (by apply created_id_identifier).
  rewrite createUserProfile_fresh by done. simpl.
  rewrite beforeDelete_runs by (apply deleted_id_identifier; by rewrite Hsame).
  rewrite Hsame.
  set (d := mkData _ _ _).
  assert (Hp : profiles_of (created_id created) (insert_profile d s) =
               [stored (nextDocumentId s) d]).
  { rewrite profiles_of_insert, Hnone. simpl.
    rewrite decide_True; [done|]. by apply same_id_eq. }
  rewrite (deleteUserProfile_first _ _ _ _ Hp). simpl.
  split; [done|]. split; [done|].
  rewrite filter_app, filter_cons_False, filter_nil, app_nil_r by (intros H; by apply H).
  apply filter_all. intros p Hin. rewrite Forall_forall in Hlt.
  specialize (Hlt p Hin). simpl in Hlt. lia.
Qed.

Lemma create_then_delete_witness :
  well_formed oneProfile ∧
  is_identifier (created_id scenarioB) ∧
  deleted_id (deletion_of (VNum 7)) = created_id scenarioB ∧
  profiles_of (created_id scenarioB) oneProfile = [] ∧
  docs (after (beforeDelete (deletion_of (VNum 7))
                 (after (afterCreate halves scenarioB oneProfile)))) = docs oneProfile.
Proof.
  assert (Hwf : well_formed oneProfile).
  { split; apply (bool_decide_unpack _); vm_compute; exact I. }
  split; [exact Hwf|]. split; [exact I|]. split; [reflexivity|]. split; [reflexivity|].
  apply (create_then_delete halves scenarioB (deletion_of (VNum 7)) oneProfile Hwf I);
    reflexivity.
Defined.

Lemma handle_count (c : Call) (uid : value) (s : Store) :
  (length (profiles_of uid (after (handle c s))) ≤
   Nat.max 1 (length (profiles_of uid s)))%nat.
Proof.
  destruct c as [rnd event|event]; simpl.
  - destruct (afterCreate_cases rnd event s) as [-> | [[_ ->] | [Hnone ->]]];
      simpl; [lia..|].
    rewrite profiles_of_insert, length_app. simpl. case_decide as Hsame; simpl; [|lia].
    pose proof (same_id_identifier _ _ Hsame) as [_ Hid].
    apply same_id_eq in Hsame; [|done]. rewrite <- Hsame, Hnone. simpl. lia.
  - destruct (beforeDelete_cases event s) as [-> | [-> | (first & others & _ & ->)]];
      simpl; [lia..|].
    rewrite profiles_of_remove.
    pose proof (length_filter (λ p, documentId p ≠ documentId first) (profiles_of uid s)).
    lia.
Qed.

(** X9.  Whatever the starting store, duplicates included, no sequence of
    [afterCreate] and [beforeDelete] invocations leaves a user with more
    profiles than the larger of one and the number the user started with. *)
Theorem profile_count_bounded (cs : list Call) (uid : value) (s : Store) :
  (length (profiles_of uid (dispatch cs s)) ≤
   Nat.max 1 (length (profiles_of uid s)))%nat.
Proof.
  revert s. induction cs as [|c cs IH]; intros s; simpl; [lia|].
  specialize (IH (after (handle c s))).
  pose proof (handle_count c uid s). lia.
Qed.

Lemma profiles_of_insert_other q d s :
  q ≠ data_user d → profiles_of q (insert_profile d s) = profiles_of q s.
Proof.
  intros Hq. rewrite profiles_of_insert. rewrite decide_False; [by rewrite app_nil_r|].
  intros Hsame. pose proof (same_id_identifier _ _ Hsame) as [_ Hid].
  apply same_id_eq in Hsame; [|done]. congruence.
Qed.

Lemma remove_insert_commute id d s :
  (id < nextDocumentId s)%N →
  remove_document id (insert_profile d s) = insert_profile d (remove_document id s).
Proof.
  intros Hid. unfold remove_document, insert_profile. simpl. f_equal.
  rewrite filter_app. f_equal. rewrite filter_cons_True; [done|]. simpl. lia.
Qed.

(** X10.  In a store whose document identifiers are distinct, a creation
    event and a deletion event for different identifiers commute: handled in
    either order they leave the same store. *)
Theorem create_delete_commute (rnd : Draws) (created deleted : value) (s : Store) :
  well_formed s →
  created_id created ≠ deleted_id deleted →
  after (beforeDelete deleted (after (afterCreate rnd created s))) =
  after (afterCreate rnd created (after (beforeDelete deleted s))).
Proof.
  intros Hwf Hne.
  destruct (nullish (prop created "result")) eqn:Hr;
    [by rewrite !afterCreate_throws by done|].
  destruct (nullish deleted) eqn:He;
    [by rewrite !beforeDelete_throws by done|].
  rewrite !afterCreate_runs, !beforeDelete_runs by done.
  set (uid := created_id created) in *. set (q := deleted_id deleted) in *.
  set (name := chosen_fullName rnd created). set (about := chosen_bio created).
  destruct (profiles_of q s) as [|first others] eqn:Hq.
  - (* nothing to delete *)
    rewrite (deleteUserProfile_none q s Hq). cbn [after].
    destruct (profiles_of uid s) eqn:Hu.
    + rewrite (createUserProfile_fresh uid name about s Hu). cbn [after].
      rewrite deleteUserProfile_none; [done|].
      rewrite profiles_of_insert_other; [done|]. simpl. congruence.
    + rewrite createUserProfile_found by (by rewrite Hu). cbn [after].
      by rewrite (deleteUserProfile_none q s Hq).
  - (* one profile to delete *)
    rewrite (deleteUserProfile_first q s first others Hq). cbn [after].
    assert (Hfirst : first ∈ profiles_of q s) by (rewrite Hq; left).
    apply list_elem_of_filter in Hfirst as [Href%references_user Hin].
    assert (Hframe : profiles_of uid (remove_document (documentId first) s) =
                     profiles_of uid s).
    { apply profiles_of_remove_other; [done..|].
      intros Href'%references_user. congruence. }
    destruct (profiles_of uid s) eqn:Hu.
    + rewrite (createUserProfile_fresh uid name about s Hu). cbn [after].
      rewrite (createUserProfile_fresh uid name about _ Hframe). cbn [after].
      erewrite deleteUserProfile_first; cbn [after].
      * apply remove_insert_commute.
        destruct Hwf as [_ Hlt]. rewrite Forall_forall in Hlt. by apply Hlt.
      * rewrite profiles_of_insert_other; [exact Hq|]. simpl. congruence.
    + rewrite createUserProfile_found by (by rewrite Hu). cbn [after].
      rewrite createUserProfile_found by (by rewrite Hframe). cbn [after].
      by rewrite (deleteUserProfile_first q s first others Hq).
Qed.

Lemma create_delete_commute_witness :
  well_formed twoProfiles ∧
  created_id scenarioB ≠ deleted_id (deletion_of (VNum 42)) ∧
  after (beforeDelete (deletion_of (VNum 42)) (after (afterCreate halves scenarioB twoProfiles))) =
  after (afterCreate halves scenarioB (after (beforeDelete (deletion_of (VNum 42)) twoProfiles))).
Proof.
  assert (Hwf : well_formed twoProfiles).
  { split; apply (bool_decide_unpack _); vm_compute; exact I. }
  assert (Hne : created_id scenarioB ≠ deleted_id (deletion_of (VNum 42))) by discriminate.
  split; [exact Hwf|]. split; [exact Hne|].
  exact (create_delete_commute halves scenarioB (deletion_of (VNum 42)) twoProfiles Hwf Hne).
Defined.

Lemma remove_remove_commute id1 id2 s :
  remove_document id2 (remove_document id1 s) =
  remove_document id1 (remove_document id2 s).
Proof.
  unfold remove_document. simpl. f_equal.
  rewrite !list_filter_filter. apply list_filter_iff. tauto.
Qed.

(** X12.  In a store whose document identifiers are distinct, two deletion
    events for different identifiers commute: handled in either order they
    leave the same store. *)
Theorem delete_delete_commute (event1 event2 : value) (s : Store) :
  well_formed s →
  deleted_id event1 ≠ deleted_id event2 →
  after (beforeDelete event2 (after (beforeDelete event1 s))) =
  after (beforeDelete event1 (after (beforeDelete event2 s))).
Proof.
  intros Hwf Hne.
  assert (Hf1 := beforeDelete_other event1 (deleted_id event2) s Hwf ltac:(congruence)).
  assert (Hf2 := beforeDelete_other event2 (deleted_id event1) s Hwf Hne).
  destruct (nullish event1) eqn:He1.
  { rewrite (beforeDelete_throws event1 s He1). cbn [after].
    by rewrite (beforeDelete_throws event1 _ He1). }
  destruct (nullish event2) eqn:He2.
  { rewrite (beforeDelete_throws event2 s He2). cbn [after].
    by rewrite (beforeDelete_throws event2 _ He2). }
  rewrite !beforeDelete_runs in * by done.
  set (q1 := deleted_id event1) in *. set (q2 := deleted_id event2) in *.
  destruct (profiles_of q1 s) as [|p1 l1] eqn:Hp1;
    destruct (profiles_of q2 s) as [|p2 l2] eqn:Hp2;
    rewrite ?Hp1, ?Hp2 in Hf1, Hf2.
  - rewrite (deleteUserProfile_none q1 s Hp1) in *. cbn [after] in *.
    rewrite (deleteUserProfile_none q2 s Hp2) in *. cbn [after] in *.
    by rewrite (deleteUserProfile_none q1 s Hp1).
  - rewrite (deleteUserProfile_none q1 s Hp1) in *. cbn [after] in *.
    by rewrite (deleteUserProfile_none q1 _ Hf2).
  - rewrite (deleteUserProfile_none q2 s Hp2) in *. cbn [after] in *.
    by rewrite (deleteUserProfile_none q2 _ Hf1).
  - rewrite (deleteUserProfile_first q2 _ p2 l2 Hf1).
    rewrite (deleteUserProfile_first q1 _ p1 l1 Hf2). cbn [after].
    rewrite (deleteUserProfile_first q1 s p1 l1 Hp1).
    rewrite (deleteUserProfile_first q2 s p2 l2 Hp2). cbn [after].
    apply remove_remove_commute.
Qed.

Lemma delete_delete_commute_witness :
  well_formed twoProfiles ∧
  deleted_id (deletion_of (VNum 42)) ≠ deleted_id (deletion_of (VNum 7)) ∧
  after (beforeDelete (deletion_of (VNum 7))
           (after (beforeDelete (deletion_of (VNum 42)) twoProfiles))) =
  after (beforeDelete (deletion_of (VNum 42))
           (after (beforeDelete (deletion_of (VNum 7)) twoProfiles))).
Proof.
  assert (Hwf : well_formed twoProfiles).
  { split; apply (bool_decide_unpack _); vm_compute; exact I. }
  assert (Hne : deleted_id (deletion_of (VNum 42)) ≠ deleted_id (deletion_of (VNum 7)))
    by discriminate.
  split; [exact Hwf|]. split; [exact Hne|].
  exact (delete_delete_commute (deletion_of (VNum 42)) (deletion_of (VNum 7))
           twoProfiles Hwf Hne).
Defined.

(** ** Errors *)

(** X11.  A handler that throws has called the document service not once and
    leaves the store as it found it: the only expressions that throw, the
    destructuring of the event and [result.id], come before the first call. *)
Theorem thrown_before_any_call (c : Call) (s : Store) (e : Error) :
  outcome (handle c s) = Thrown e → ops (handle c s) = [] ∧ after (handle c s) = s.
Proof.
  destruct c as [rnd event|event]; simpl.
  - by destruct (afterCreate_cases rnd event s) as [-> | [[_ ->] | [_ ->]]].
  - by destruct (beforeDelete_cases event s) as [-> | [-> | (first & others & _ & ->)]].
Qed.

Lemma thrown_before_any_call_witness :
  outcome (handle (OnUserDeleting VNull) oneProfile) = Thrown TypeError ∧
  ops (handle (OnUserDeleting VNull) oneProfile) = [] ∧
  after (handle (OnUserDeleting VNull) oneProfile) = oneProfile.
Proof.
  split; [reflexivity|].
  exact (thrown_before_any_call (OnUserDeleting VNull) oneProfile TypeError eq_refl).
Defined.
